(** * netlib signaling: the per-connection websocket handler

    A shallow embedding of [internal/signaling/handler.go] (package
    [signaling]): the [http.HandlerFunc] returned by [Handler], its deferred
    teardown, its read loop and its keepalive goroutine.

    The handler is an interactive program.  It is embedded as a function of
    what its environment does during one connection (the upgrade result, the
    frames that arrive and when, what the collaborators answer) that returns
    the ordered list of the actions the goroutine performs.  Go's [panic] and
    [defer] are kept: a computation ends by returning, by panicking, or not at
    all, and deferred calls run in LIFO order on the first two. *)

From Stdlib Require Import List String Ascii ZArith Lia Bool.
Import ListNotations.
Local Open Scope string_scope.
Local Open Scope list_scope.
Local Open Scope Z_scope.

(** ** Go base types *)

(** [[]byte]. *)
Definition bytes := list Byte.byte.

(** Go's [error] values that are not nil, by their message. *)
Definition error := string.

(** A function result [(v, err)]: either [err == nil] and the value, or the error. *)
Inductive result (A : Type) : Type :=
| Ok (v : A)
| Err (e : error).
Arguments Ok {A} v.
Arguments Err {A} e.

(** A point in time, in nanoseconds since an arbitrary origin. *)
Definition Instant := Z.

(** Package [time]: a [Duration] is an int64 count of nanoseconds. *)
Module gotime.
Definition Duration := Z.
Definition Nanosecond : Duration := 1.
Definition Microsecond : Duration := 1000 * Nanosecond.
Definition Millisecond : Duration := 1000 * Microsecond.
Definition Second : Duration := 1000 * Millisecond.
Definition Minute : Duration := 60 * Second.
Definition Hour : Duration := 60 * Minute.
End gotime.

(** Package [context], as far as the handler uses it. *)
Module context.

Inductive t : Type :=
| Background
| Request (cancelled : option Instant)
  (** [r.Context()]: the server cancels it at this instant, if it ever does *)
| WithValue (parent : t)
  (** [logging.WithLogger(parent, logger)] *)
| WithTimeout (parent : t) (created : Instant) (timeout : gotime.Duration).

Definition earlier (a b : option Instant) : option Instant :=
  match a, b with
  | Some x, Some y => Some (Z.min x y)
  | Some x, None => Some x
  | None, y => y
  end.

(** The instant from which [ctx.Done()] is closed and [ctx.Err()] is not nil:
    the earliest deadline or cancellation along the chain of parents. *)
Fixpoint done_at (c : t) : option Instant :=
  match c with
  | Background => None
  | Request cancelled => cancelled
  | WithValue parent => done_at parent
  | WithTimeout parent created timeout =>
      earlier (Some (created + timeout)) (done_at parent)
  end.

(** [ctx.Err() != nil] at instant [now]. *)
Definition expired (c : t) (now : Instant) : bool :=
  match done_at c with
  | Some d => d <=? now
  | None => false
  end.


End context.

(** Package [nhooyr.io/websocket], as far as the handler uses it. *)
Module websocket.

(** RFC 6455 close codes. *)
Definition StatusCode := Z.
Definition StatusInternalError : StatusCode := 1011.

(** [CompressionMode] is an int whose zero value is the library's default. *)
Definition CompressionMode := Z.
Definition CompressionDefault : CompressionMode := 0.

Record AcceptOptions : Type := {
  InsecureSkipVerify : bool;
  CompressionMode_ : CompressionMode
}.

End websocket.

(** Package [net/http]. *)
Module http.
Definition StatusBadRequest : Z := 400.
End http.

(** Package [strings]. *)
Module strings.

(** [strings.Contains(s, substr)]: [substr] occurs in [s]. *)
Fixpoint Contains (s substr : string) : bool :=
  String.prefix substr s
  || match s with
     | EmptyString => false
     | String _ rest => Contains rest substr
     end.

(** [strings.ToLower] on one ASCII character. *)
Definition lower (c : ascii) : ascii :=
  let n := nat_of_ascii c in
  if ((65 <=? n) && (n <=? 90))%nat then ascii_of_nat (n + 32) else c.

(** [strings.ToLower] restricted to ASCII: bytes from 128 on are kept. *)
Fixpoint ToLowerASCII (s : string) : string :=
  match s with
  | EmptyString => EmptyString
  | String c rest => String (lower c) (ToLowerASCII rest)
  end.

End strings.

(** ** Types of the repository declared outside the examined file *)

(** Modelled from the spec: [cloudflare.Credentials] is declared in a package
    that is not among the examined sources; the spec calls the credentials
    "time-boxed and opaque to this layer", so they are an opaque payload. *)
Definition Credentials := string.

(** Modelled from the spec: [metrics.EventParams] is declared in a package that
    is not among the examined sources; the spec calls it "arbitrary structured
    telemetry parameters", here a list of named values. *)
Definition EventParams := list (string * string).

(** The fields of [Peer] the handler reads.  [store], [conn] and
    [retrievedIDCallback] are set once at construction and never read by the
    handler, the other two are written by [Peer.HandlePacket]. *)
Record Peer : Type := {
  ID : string;
  closedPacketReceived : bool
}.

(** The packets the handler builds itself. *)
Inductive Packet : Type :=
| PingPacket (Type_ : string)
| CredentialsPacket (Type_ : string) (credentials : Credentials).

(** ** What the handler does not control *)

(** Library functions whose body is outside the repository, or helpers of the
    repository that are pure functions of their argument. *)
Record Extern : Type := {
  (** [strings.ToLower] *)
  ToLower : string -> string;
  (** [json.Unmarshal(raw, &typeOnly)]: the [Type] field afterwards, or the error *)
  Unmarshal_typeOnly : bytes -> result string;
  (** [json.Unmarshal(raw, &params)] for [metrics.EventParams] *)
  Unmarshal_EventParams : bytes -> result EventParams;
  (** [util.IsPipeError] *)
  IsPipeError : error -> bool;
  (** [websocket.CompressionDisabled] *)
  CompressionDisabled : websocket.CompressionMode
}.

(** The upgrade request. *)
Record Request : Type := {
  (** when the server cancels [r.Context()], if ever *)
  cancelled : option Instant;
  (** [r.Header.Get("User-Agent")] *)
  UserAgent : string
}.

(** One turn of the read loop as the environment decides it: the frame or
    failure [conn.Read] meets, how long it waits for it, and what the
    collaborators answer should the handler call them in this turn. *)
Record Inbound : Type := {
  (** [conn.Read] waits this long; [None]: nothing arrives any more *)
  arrives : option N;
  (** what [conn.Read] then returns *)
  frame : result bytes;
  (** what [cloudflare.GetCredentials] returns *)
  creds : result Credentials;
  (** what [peer.Send] returns *)
  sent : option error;
  (** the peer after [peer.HandlePacket], and what the call returns *)
  handled : Peer * option error;
  (** what [metrics.RecordEvent] returns in its own goroutine; the handler
      starts it with [go] and never sees the answer *)
  recorded : option error;
  (** how long the dispatch of the frame takes *)
  busy : N
}.

(** One connection as the environment decides it. *)
Record Conn : Type := {
  (** the error of [websocket.Accept], if the upgrade fails *)
  accept : option error;
  (** how long the upgrade takes *)
  accept_takes : N;
  inbound : list Inbound
}.

(** The silent connection: nothing arrives any more. *)
Definition silence : Inbound := {|
  arrives := None;
  frame := Err "unreachable";
  creds := Err "unreachable";
  sent := None;
  handled := ({| ID := ""; closedPacketReceived := false |}, None);
  recorded := None;
  busy := 0
|}.

(** ** Observable actions *)

Inductive Event : Type :=
| LogDebug (msg : string)
| LogInfo (msg : string) (peer : string)
| LogWarn (msg : string) (peer : string) (type : string)
| LogError (msg : string) (peer : string) (e : error)
| Accept (opts : websocket.AcceptOptions)
| ErrorAndAbort (status : Z) (code : string) (e : error)
| WgAdd (delta : Z)
| WgDone
| GoKeepalive (ctx : context.t)
| ConnRead (ctx : context.t) (at_ : Instant) (res : result bytes)
| ErrorAndDisconnect (ctx : context.t) (e : error)
| GetCredentials (ctx : context.t)
| ReplyError (ctx : context.t) (e : error)
| PeerSend (ctx : context.t) (packet : Packet)
| GoRecordEvent (ctx : context.t) (params : EventParams)
| PeerHandlePacket (ctx : context.t) (type : string) (raw : bytes)
| ConnClose (code : websocket.StatusCode) (reason : string)
| Disconnected (ctx : context.t) (peer : Peer)
| Cancel (ctx : context.t)
| NewTicker (d : gotime.Duration)
| TickerStop.

(** ** Goroutines with panic and defer *)

(** What the handler goroutine's variables hold, and the wall clock. *)
Record State : Type := {
  peer : Peer;
  clock : Instant
}.

(** How a computation ends: it returns, it panics (the helpers of [util]
    panic with [http.ErrAbortHandler]), or it never continues. *)
Inductive Res (A : Type) : Type :=
| Returned (a : A)
| Panicked
| Blocked.
Arguments Returned {A} a.
Arguments Panicked {A}.
Arguments Blocked {A}.

Definition Go (A : Type) : Type := State -> Res A * State * list Event.

Definition ret {A} (a : A) : Go A := fun s => (Returned a, s, []).

Definition bind {A B} (m : Go A) (k : A -> Go B) : Go B :=
  fun s =>
    match m s with
    | (Returned a, s1, t1) =>
        let '(r, s2, t2) := k a s1 in (r, s2, t1 ++ t2)
    | (Panicked, s1, t1) => (Panicked, s1, t1)
    | (Blocked, s1, t1) => (Blocked, s1, t1)
    end.

Notation "x <- m ;; k" := (bind m (fun x => k))
  (at level 61, m at next level, right associativity).
Notation "m ;; k" := (bind m (fun _ => k))
  (at level 61, right associativity).

Definition emit (e : Event) : Go unit := fun s => (Returned tt, s, [e]).
Definition panic {A} : Go A := fun s => (Panicked, s, []).
Definition block {A} : Go A := fun s => (Blocked, s, []).
Definition get_peer : Go Peer := fun s => (Returned (peer s), s, []).
Definition put_peer (p : Peer) : Go unit :=
  fun s => (Returned tt, {| peer := p; clock := clock s |}, []).
Definition now : Go Instant := fun s => (Returned (clock s), s, []).
Definition elapse (d : N) : Go unit :=
  fun s => (Returned tt, {| peer := peer s; clock := clock s + Z.of_N d |}, []).

(** [defer d(); body]: [d] runs when [body] returns and when it panics, and a
    panic of [body] goes on after it. *)
Definition defer {A} (d : Go unit) (body : Go A) : Go A :=
  fun s =>
    match body s with
    | (Blocked, s1, t1) => (Blocked, s1, t1)
    | (r, s1, t1) =>
        match d s1 with
        | (Returned _, s2, t2) => (r, s2, t1 ++ t2)
        | (Panicked, s2, t2) => (Panicked, s2, t1 ++ t2)
        | (Blocked, s2, t2) => (Blocked, s2, t1 ++ t2)
        end
    end.

Definition result_of {A} (x : Res A * State * list Event) : Res A := fst (fst x).
Definition state_of {A} (x : Res A * State * list Event) : State := snd (fst x).
Definition trace {A} (x : Res A * State * list Event) : list Event := snd x.

(** ** Helpers of package [util] *)

(** Modelled from the spec: [util.ErrorAndAbort] is not among the examined
    sources.  The spec has the handler "reject with a client error if
    negotiation fails (before any Peer exists)", and the caller uses [conn]
    right after the call without returning: the helper answers the request
    and does not return (it panics with [http.ErrAbortHandler]). *)
Definition util_ErrorAndAbort {A} (status : Z) (code : string) (e : error) : Go A :=
  emit (ErrorAndAbort status code e) ;; panic.

(** Modelled from the spec: [util.ErrorAndDisconnect] is not among the examined
    sources.  The spec has such errors "terminate the connection immediately",
    and the callers go on to use [raw] and [params] right after the call
    without returning: the helper reports the error, closes the connection and
    does not return (it panics with [http.ErrAbortHandler]). *)
Definition util_ErrorAndDisconnect {A} (ctx : context.t) (e : error) : Go A :=
  emit (ErrorAndDisconnect ctx e) ;; panic.

(** Modelled from the spec: [util.ReplyError] is not among the examined
    sources.  The spec has request-level errors "reported back to the sender
    as an error envelope, connection stays open": the helper writes the error
    envelope and returns. *)
Definition util_ReplyError (ctx : context.t) (e : error) : Go unit :=
  emit (ReplyError ctx e).

(** ** Calls into the connection and the collaborators *)

(** The bodies of these calls are outside the examined file ([peer.go], the
    [cloudflare] client, the websocket library): each is the action of
    calling it, and its answer is the environment's. *)

(** The error of a read on a context that is done. *)
Definition context_error : error := "context deadline exceeded".

(** [conn.Read(ctx)]: the frame or failure the environment has next, unless
    the context is done first; then the read fails at that instant.  With
    nothing to arrive and no deadline the read never returns. *)
Definition conn_Read (ctx : context.t) (i : Inbound) : Go (result bytes) :=
  fun s =>
    let deliver w :=
      let t := clock s + Z.of_N w in
      (Returned (frame i), {| peer := peer s; clock := t |},
       [ConnRead ctx t (frame i)]) in
    let fail d :=
      let t := Z.max (clock s) d in
      (Returned (Err context_error), {| peer := peer s; clock := t |},
       [ConnRead ctx t (Err context_error)]) in
    match arrives i, context.done_at ctx with
    | Some w, None => deliver w
    | Some w, Some d => if clock s + Z.of_N w <? d then deliver w else fail d
    | None, Some d => fail d
    | None, None => (Blocked, s, [])
    end.

(** [cloudflare.GetCredentials(ctx)] *)
Definition cloudflare_GetCredentials (ctx : context.t) (i : Inbound)
  : Go (result Credentials) :=
  emit (GetCredentials ctx) ;; ret (creds i).

(** [peer.Send(ctx, packet)] *)
Definition peer_Send (ctx : context.t) (packet : Packet) (answer : option error)
  : Go (option error) :=
  emit (PeerSend ctx packet) ;; ret answer.

(** [peer.HandlePacket(ctx, typ, raw)]: the call may write the peer's fields. *)
Definition peer_HandlePacket (ctx : context.t) (typ : string) (raw : bytes)
    (i : Inbound) : Go (option error) :=
  emit (PeerHandlePacket ctx typ raw) ;;
  put_peer (fst (handled i)) ;;
  ret (snd (handled i)).

(** [const MaxConnectionTime = 1 * time.Hour] *)
Definition MaxConnectionTime : gotime.Duration := 1 * gotime.Hour.

(** [isSafari], from the lowercased User-Agent. *)
Definition isSafari (userAgentLower : string) : bool :=
  strings.Contains userAgentLower "safari"
  && negb (strings.Contains userAgentLower "chrome")
  && negb (strings.Contains userAgentLower "android").

Section Handler.

Variable E : Extern.

(** [acceptOptions] as passed to [websocket.Accept] (handler.go:37-46). *)
Definition acceptOptions (r : Request) : websocket.AcceptOptions :=
  let userAgentLower := ToLower E (UserAgent r) in
  let acceptOptions := {|
    websocket.InsecureSkipVerify := true;
    websocket.CompressionMode_ := websocket.CompressionDefault
  |} in
  if isSafari userAgentLower then
    {| websocket.InsecureSkipVerify := websocket.InsecureSkipVerify acceptOptions;
       websocket.CompressionMode_ := CompressionDisabled E |}
  else acceptOptions.

(** [websocket.Accept(w, r, acceptOptions)]; the upgrade takes the time the
    environment says. *)
Definition websocket_Accept (opts : websocket.AcceptOptions) (c : Conn)
  : Go (option error) :=
  emit (Accept opts) ;; elapse (accept_takes c) ;; ret (accept c).

(** The [switch typeOnly.Type] of the read loop (handler.go:105-134); the
    branch takes the time the environment says. *)
Definition dispatch (ctx : context.t) (i : Inbound) (typ : string) (raw : bytes)
  : Go unit :=
  elapse (busy i) ;;
  if (typ =? "credentials")%string then
    r <- cloudflare_GetCredentials ctx i ;;
    match r with
    | Err e => util_ReplyError ctx e
    | Ok credentials =>
        let packet := CredentialsPacket "credentials" credentials in
        e <- peer_Send ctx packet (sent i) ;;
        match e with
        | Some e => util_ErrorAndDisconnect ctx e
        | None => ret tt
        end
    end
  else if (typ =? "event")%string then
    params <- match Unmarshal_EventParams E raw with
              | Err e => util_ErrorAndDisconnect ctx e
              | Ok params => ret params
              end ;;
    emit (GoRecordEvent ctx params)
  else if (typ =? "pong")%string then
    ret tt
  else
    e <- peer_HandlePacket ctx typ raw i ;;
    match e with
    | Some e => util_ErrorAndDisconnect ctx e
    | None => ret tt
    end.

(** The body of the read loop (handler.go:90-134). *)
Definition iteration (ctx : context.t) (i : Inbound) : Go unit :=
  r <- conn_Read ctx i ;;
  raw <- match r with
         | Err e => util_ErrorAndDisconnect ctx e
         | Ok raw => ret raw
         end ;;
  typ <- match Unmarshal_typeOnly E raw with
         | Err e => util_ErrorAndDisconnect ctx e
         | Ok typ => ret typ
         end ;;
  p <- get_peer ;;
  if closedPacketReceived p then
    emit (LogWarn "received packet after close" (ID p) typ)
  else
    dispatch ctx i typ raw.

(** [for ctx.Err() == nil { ... }] (handler.go:89-135).  Each turn takes the
    next [Inbound] of the connection; when none is left the connection is
    silent, and the turn cannot return (see [iteration_silence]). *)
Fixpoint read_loop (ctx : context.t) (script : list Inbound) : Go unit :=
  t <- now ;;
  if context.expired ctx t then ret tt
  else
    match script with
    | [] => iteration ctx silence
    | i :: rest => iteration ctx i ;; read_loop ctx rest
    end.

(** The context of the disconnect bookkeeping (handler.go:68), made at [t]:
    [context.WithTimeout(logging.WithLogger(context.Background(), logger), time.Second*10)]. *)
Definition disconnect_context (t : Instant) : context.t :=
  context.WithTimeout (context.WithValue context.Background) t (gotime.Second * 10).

(** The deferred closure of handler.go:62-72. *)
Definition teardown : Go unit :=
  p <- get_peer ;;
  emit (LogInfo "peer websocket closed" (ID p)) ;;
  emit (ConnClose websocket.StatusInternalError "unexpceted closure") ;;
  p <- get_peer ;;
  if negb (closedPacketReceived p) then
    t <- now ;;
    let nctx := disconnect_context t in
    defer (emit (Cancel nctx)) (emit (Disconnected nctx p))
  else ret tt.

(** What [select] picks in a turn of the keepalive goroutine. *)
Inductive Select : Type :=
| TickerC (shared : Peer) (answer : option error)
  (** [<-ticker.C]: the peer as the goroutine then reads it, and what
      [peer.Send] returns *)
| CtxDone.
  (** [<-ctx.Done()] *)

(** The [for { select { ... } }] of the keepalive goroutine (handler.go:77-86);
    with no choice left the goroutine waits in its [select]. *)
Fixpoint keepalive_loop (ctx : context.t) (sched : list Select) : Go unit :=
  match sched with
  | [] => block
  | TickerC shared answer :: rest =>
      put_peer shared ;;
      e <- peer_Send ctx (PingPacket "ping") answer ;;
      p <- get_peer ;;
      match e with
      | Some e =>
          if negb (IsPipeError E e) then
            emit (LogError "failed to send ping packet" (ID p) e)
          else ret tt
      | None => ret tt
      end ;;
      keepalive_loop ctx rest
  | CtxDone :: _ => ret tt
  end.

(** The keepalive goroutine (handler.go:74-87). *)
Definition keepalive (ctx : context.t) (sched : list Select) : Go unit :=
  emit (NewTicker (30 * gotime.Second)) ;;
  defer (emit TickerStop) (keepalive_loop ctx sched).

(** The [http.HandlerFunc] that [Handler] returns (handler.go:29-136). *)
Definition Handler (r : Request) (c : Conn) : Go unit :=
  emit (LogDebug "upgrading connection") ;;
  t <- now ;;
  let ctx := context.WithTimeout (context.Request (cancelled r)) t MaxConnectionTime in
  defer (emit (Cancel ctx)) (
    e <- websocket_Accept (acceptOptions r) c ;;
    match e with
    | Some e => util_ErrorAndAbort http.StatusBadRequest "" e
    | None => ret tt
    end ;;
    emit (WgAdd 1) ;;
    defer (emit WgDone) (
      put_peer {| ID := ""; closedPacketReceived := false |} ;;
      defer teardown (
        emit (GoKeepalive ctx) ;;
        read_loop ctx (inbound c)))).

End Handler.

(** The handler goroutine starts with no peer yet. *)
Definition start (t : Instant) : State :=
  {| peer := {| ID := ""; closedPacketReceived := false |}; clock := t |}.

(** The connection context the handler derives at instant [t] (handler.go:34). *)
Definition connection_context (r : Request) (t : Instant) : context.t :=
  context.WithTimeout (context.Request (cancelled r)) t MaxConnectionTime.

(** ** Vocabulary of the statements *)

(** Actions of a dispatch branch of the read loop. *)
Definition reaches_dispatch (e : Event) : bool :=
  match e with
  | GetCredentials _ | ReplyError _ _ | PeerSend _ _
  | GoRecordEvent _ _ | PeerHandlePacket _ _ _ => true
  | _ => false
  end.

(** Actions the read loop can perform at all. *)
Definition in_read_loop (e : Event) : bool :=
  match e with
  | ConnRead _ _ _ | ErrorAndDisconnect _ _ | LogWarn _ _ _ => true
  | _ => reaches_dispatch e
  end.

Definition is_disconnect (e : Event) : bool :=
  match e with
  | ErrorAndDisconnect _ _ => true
  | _ => false
  end.

Definition is_warning (e : Event) : bool :=
  match e with
  | LogWarn _ _ _ => true
  | _ => false
  end.

(** The same variables, at another instant. *)
Definition at_clock (s : State) (t : Instant) : State :=
  {| peer := peer s; clock := t |}.

(** The state after the dispatch of a frame that changed no field of the peer. *)
Definition after_dispatch (s : State) (i : Inbound) : State :=
  at_clock s (clock s + Z.of_N (busy i)).

(** A read on [ctx] that returned by [d], and strictly before [d] unless it
    failed on the context. *)
Definition read_by (ctx : context.t) (d : Instant) (e : Event) : Prop :=
  match e with
  | ConnRead c t res => c = ctx /\ t <= d /\ (res = Err context_error \/ t < d)
  | _ => True
  end.

(** What the deferred closure does when it is run in state [s]. *)
Definition teardown_actions (s : State) : list Event :=
  [LogInfo "peer websocket closed" (ID (peer s));
   ConnClose websocket.StatusInternalError "unexpceted closure"]
  ++ (if closedPacketReceived (peer s) then []
      else [Disconnected (disconnect_context (clock s)) (peer s);
            Cancel (disconnect_context (clock s))]).

(** The state in which the read loop starts: a fresh peer, the clock after
    the upgrade. *)
Definition upgraded_at (t : Instant) (c : Conn) : State :=
  {| peer := {| ID := ""; closedPacketReceived := false |};
     clock := t + Z.of_N (accept_takes c) |}.

(** [sub] occurs in [s]: some text, then [sub], then some text. *)
Definition occurs (sub s : string) : Prop :=
  exists before after, s = (before ++ sub ++ after)%string.

(** The same turn of the environment, with another answer of the
    telemetry sink. *)
Definition with_recorded (answer : option error) (i : Inbound) : Inbound := {|
  arrives := arrives i;
  frame := frame i;
  creds := creds i;
  sent := sent i;
  handled := handled i;
  recorded := answer;
  busy := busy i
|}.

(** The spec's words for a connection that has received its close envelope:
    "any further inbound packets are logged and dropped rather than
    processed".  A turn reads, decodes the type, logs, and does nothing else. *)
Definition log_and_drop_turn (E : Extern) (ctx : context.t) (i : Inbound) : Go unit :=
  r <- conn_Read ctx i ;;
  raw <- match r with
         | Err e => util_ErrorAndDisconnect ctx e
         | Ok raw => ret raw
         end ;;
  typ <- match Unmarshal_typeOnly E raw with
         | Err e => util_ErrorAndDisconnect ctx e
         | Ok typ => ret typ
         end ;;
  p <- get_peer ;;
  emit (LogWarn "received packet after close" (ID p) typ).

Fixpoint log_and_drop (E : Extern) (ctx : context.t) (script : list Inbound) : Go unit :=
  t <- now ;;
  if context.expired ctx t then ret tt
  else
    match script with
    | [] => log_and_drop_turn E ctx silence
    | i :: rest => log_and_drop_turn E ctx i ;; log_and_drop E ctx rest
    end.

(** The turns of the keepalive goroutine in which the ticker fires, up to
    the first turn in which [select] takes [<-ctx.Done()]. *)
Fixpoint ticks (sched : list Select) : list (Peer * option error) :=
  match sched with
  | TickerC shared answer :: rest => (shared, answer) :: ticks rest
  | _ => []
  end.

(** Some turn takes [<-ctx.Done()]. *)
Fixpoint ctx_done (sched : list Select) : bool :=
  match sched with
  | [] => false
  | TickerC _ _ :: rest => ctx_done rest
  | CtxDone :: _ => true
  end.

(** The spec's words for one tick: send a ping; a failure to send that is
    not the benign pipe-closed condition is logged. *)
Definition ping (E : Extern) (ctx : context.t) (tick : Peer * option error)
  : list Event :=
  PeerSend ctx (PingPacket "ping")
  :: match snd tick with
     | Some e =>
         if IsPipeError E e then []
         else [LogError "failed to send ping packet" (ID (fst tick)) e]
     | None => []
     end.

(** [sync.WaitGroup]: what an action adds to the counter. *)
Definition wg_delta (e : Event) : Z :=
  match e with
  | WgAdd delta => delta
  | WgDone => -1
  | _ => 0
  end.

(** The counter after the actions [t], from zero. *)
Definition wg_counter (t : list Event) : Z :=
  fold_right (fun e n => wg_delta e + n) 0 t.

Definition is_WgAdd (e : Event) : bool :=
  match e with
  | WgAdd _ => true
  | _ => false
  end.

Definition is_WgDone (e : Event) : bool :=
  match e with
  | WgDone => true
  | _ => false
  end.

(** A handler goroutine of the server at some moment: its request, what the
    environment does with its connection, when it started, and how many of
    its actions it has performed by now. *)
Record Serving : Type := {
  req : Request;
  conn : Conn;
  started : Instant;
  steps : nat
}.

(** The actions the goroutine has performed by now. *)
Definition so_far (E : Extern) (g : Serving) : list Event :=
  firstn (steps g)
    (trace (Handler E (req g) (conn g) (start (started g)))).

(** The counter of the wait-group that [Handler] returns, at a moment when
    the server's handler goroutines are [server]. *)
Definition WaitGroup (E : Extern) (server : list Serving) : Z :=
  fold_right (fun g n => wg_counter (so_far E g) + n) 0 server.

(** Actions that leave the wait-group's counter as it is. *)
Definition quiet (t : list Event) : Prop := Forall (fun e => wg_delta e = 0) t.

(** Actions that are neither [wg.Add] nor [wg.Done]. *)
Definition outside_wg (e : Event) : bool :=
  negb (is_WgAdd e) && negb (is_WgDone e).

(** ** Vocabulary of the further statements *)

(** The peer right after its construction (handler.go:56-61). *)
Definition fresh_peer : Peer := {| ID := ""; closedPacketReceived := false |}.

Definition is_HandlePacket (e : Event) : bool :=
  match e with
  | PeerHandlePacket _ _ _ => true
  | _ => false
  end.

(** The types the read loop serves itself. *)
Definition served_by_handler (typ : string) : bool :=
  ((typ =? "credentials") || (typ =? "event") || (typ =? "pong"))%string.

(** The actions [t] end with a call of [util.ErrorAndDisconnect], the only
    one among them. *)
Definition ends_by_disconnect (ctx : context.t) (t : list Event) : Prop :=
  exists before e,
    t = before ++ [ErrorAndDisconnect ctx e]
    /\ existsb is_disconnect before = false.

(** What must hold of the turn [i] of the environment for the read loop on
    [ctx] to perform the dispatch action [e] in it. *)
Definition explained (E : Extern) (ctx : context.t) (i : Inbound) (e : Event)
  : Prop :=
  match e with
  | PeerHandlePacket c typ raw =>
      c = ctx /\ frame i = Ok raw /\ Unmarshal_typeOnly E raw = Ok typ
      /\ served_by_handler typ = false
  | GoRecordEvent c params =>
      c = ctx
      /\ exists raw, frame i = Ok raw /\ Unmarshal_typeOnly E raw = Ok "event"
                     /\ Unmarshal_EventParams E raw = Ok params
  | GetCredentials c =>
      c = ctx
      /\ exists raw, frame i = Ok raw /\ Unmarshal_typeOnly E raw = Ok "credentials"
  | PeerSend c packet =>
      c = ctx
      /\ exists raw credentials,
           frame i = Ok raw /\ Unmarshal_typeOnly E raw = Ok "credentials"
           /\ creds i = Ok credentials
           /\ packet = CredentialsPacket "credentials" credentials
  | ReplyError c e =>
      c = ctx
      /\ exists raw, frame i = Ok raw /\ Unmarshal_typeOnly E raw = Ok "credentials"
                     /\ creds i = Err e
  | _ => True
  end.

(** ** A concrete environment, for running the model *)

Module Sample.

(** A JSON string literal. *)
Definition quoted (s : string) : string :=
  String "034" (s ++ String "034" EmptyString).

(** The frame [{"type":"<typ>"<more>}]. *)
Definition envelope (typ more : string) : bytes :=
  list_byte_of_string ("{" ++ quoted "type" ++ ":" ++ quoted typ ++ more ++ "}").

Definition hello : bytes := envelope "hello" "".
Definition close : bytes := envelope "close" "".
Definition pong : bytes := envelope "pong" "".
Definition credentials : bytes := envelope "credentials" "".
Definition event : bytes :=
  envelope "event" ("," ++ quoted "action" ++ ":" ++ quoted "join").
(** A telemetry field of the wrong JSON kind: a number for a string. *)
Definition event_mistyped : bytes :=
  envelope "event" ("," ++ quoted "action" ++ ":7").
(** Not JSON at all. *)
Definition garbage : bytes := list_byte_of_string "{type".

(** What [encoding/json] answers on these frames. *)
Definition decoded : list (bytes * (result string * result EventParams)) :=
  [ (hello, (Ok "hello", Ok []));
    (close, (Ok "close", Ok []));
    (pong, (Ok "pong", Ok []));
    (credentials, (Ok "credentials", Ok []));
    (event, (Ok "event", Ok [("action", "join")]));
    (event_mistyped,
     (Ok "event", Err "json: cannot unmarshal number into Go struct field") ) ].

Definition same (a b : bytes) : bool :=
  (string_of_list_byte a =? string_of_list_byte b)%string.

Fixpoint lookup (raw : bytes) (table : list (bytes * (result string * result EventParams)))
  : result string * result EventParams :=
  match table with
  | [] => (Err "invalid character", Err "invalid character")
  | (k, v) :: rest => if same raw k then v else lookup raw rest
  end.

Definition broken_pipe : error := "write: broken pipe".

Definition extern : Extern := {|
  ToLower := strings.ToLowerASCII;
  Unmarshal_typeOnly := fun raw => fst (lookup raw decoded);
  Unmarshal_EventParams := fun raw => snd (lookup raw decoded);
  IsPipeError := fun e => (e =? broken_pipe)%string;
  CompressionDisabled := 2
|}.

(** A frame that arrives after [w] nanoseconds and is dispatched at once;
    [peer.HandlePacket] names the peer, and a [close] frame sets its flag. *)
Definition arrival (w : N) (raw : bytes) : Inbound := {|
  arrives := Some w;
  frame := Ok raw;
  creds := Ok "turn-credentials";
  sent := None;
  handled := ({| ID := "peer-1"; closedPacketReceived := same raw close |}, None);
  recorded := Some "telemetry backend unavailable";
  busy := 0
|}.

(** The transport fails after [w] nanoseconds. *)
Definition failure (w : N) (e : error) : Inbound := {|
  arrives := Some w;
  frame := Err e;
  creds := Err "unreachable";
  sent := None;
  handled := ({| ID := ""; closedPacketReceived := false |}, None);
  recorded := None;
  busy := 0
|}.

Definition request : Request := {|
  cancelled := None;
  UserAgent := "Mozilla/5.0 (X11; Linux x86_64) Chrome/120.0 Safari/537.36"
|}.

Definition upgraded (script : list Inbound) : Conn := {|
  accept := None;
  accept_takes := 1000;
  inbound := script
|}.

Definition closed_peer : State :=
  {| peer := {| ID := "peer-1"; closedPacketReceived := true |}; clock := 0 |}.

(** A request from Safari. *)
Definition safari_request : Request := {|
  cancelled := None;
  UserAgent :=
    "Mozilla/5.0 (Macintosh; Intel Mac OS X 10_15_7) Version/17.4 Safari/605.1.15"
|}.

(** A [credentials] request that finds the credential provider down. *)
Definition provider_down (w : N) : Inbound := {|
  arrives := Some w;
  frame := Ok credentials;
  creds := Err "cloudflare: 503";
  sent := None;
  handled := ({| ID := ""; closedPacketReceived := false |}, None);
  recorded := None;
  busy := 2
|}.

(** What [select] takes in six turns of a keepalive goroutine. *)
Definition keepalive_schedule : list Select :=
  let p := {| ID := "peer-1"; closedPacketReceived := false |} in
  [TickerC p None; TickerC p (Some broken_pipe);
   TickerC p (Some "i/o timeout"); TickerC p None; CtxDone; TickerC p None].

(** Three handler goroutines of a server at some moment: one that has
    returned, one in its read loop, one whose upgrade failed. *)
Definition finished : Serving := {|
  req := request;
  conn := upgraded [failure 5 "EOF"];
  started := 0;
  steps := 12
|}.

Definition reading : Serving := {|
  req := request;
  conn := upgraded [arrival 5 hello];
  started := 100;
  steps := 5
|}.

Definition rejected : Serving := {|
  req := request;
  conn := {| accept := Some "websocket: bad handshake";
                   accept_takes := 10; inbound := [] |};
  started := 200;
  steps := 4
|}.

(** An identity claim that [peer.HandlePacket] turns down. *)
Definition refused (w : N) : Inbound := {|
  arrives := Some w;
  frame := Ok hello;
  creds := Err "unreachable";
  sent := None;
  handled := ({| ID := "peer-9"; closedPacketReceived := false |},
              Some "peer: unknown id");
  recorded := None;
  busy := 3
|}.

(** A handler goroutine whose upgrade has succeeded and whose next statement
    is [wg.Add(1)]. *)
Definition upgraded_not_added : Serving := {|
  req := request;
  conn := upgraded [arrival 5 hello];
  started := 300;
  steps := 2
|}.

End Sample.

(** * Properties *)

(** ** The goroutine monad *)

Lemma bind_Returned {A B} (m : Go A) (k : A -> Go B) s a s1 t1 :
  m s = (Returned a, s1, t1) ->
  bind m k s = (let '(r, s2, t2) := k a s1 in (r, s2, t1 ++ t2)).
Proof. intros H. unfold bind. now rewrite H. Qed.

Lemma bind_Panicked {A B} (m : Go A) (k : A -> Go B) s s1 t1 :
  m s = (Panicked, s1, t1) -> bind m k s = (Panicked, s1, t1).
Proof. intros H. unfold bind. now rewrite H. Qed.

Lemma bind_Blocked {A B} (m : Go A) (k : A -> Go B) s s1 t1 :
  m s = (Blocked, s1, t1) -> bind m k s = (Blocked, s1, t1).
Proof. intros H. unfold bind. now rewrite H. Qed.

Lemma bind_result {A B} (m : Go A) (k : A -> Go B) s :
  result_of (bind m k s) =
    match result_of (m s) with
    | Returned a => result_of (k a (state_of (m s)))
    | Panicked => Panicked
    | Blocked => Blocked
    end.
Proof.
  unfold bind. destruct (m s) as [[[a| |] s1] t1]; cbn; try reflexivity.
  now destruct (k a s1) as [[r s2] t2].
Qed.

Lemma bind_state {A B} (m : Go A) (k : A -> Go B) s :
  state_of (bind m k s) =
    match result_of (m s) with
    | Returned a => state_of (k a (state_of (m s)))
    | _ => state_of (m s)
    end.
Proof.
  unfold bind. destruct (m s) as [[[a| |] s1] t1]; cbn; try reflexivity.
  now destruct (k a s1) as [[r s2] t2].
Qed.

Lemma bind_trace {A B} (m : Go A) (k : A -> Go B) s :
  trace (bind m k s) =
    trace (m s) ++
    match result_of (m s) with
    | Returned a => trace (k a (state_of (m s)))
    | _ => []
    end.
Proof.
  unfold bind. destruct (m s) as [[[a| |] s1] t1]; cbn;
    try now rewrite app_nil_r.
  now destruct (k a s1) as [[r s2] t2].
Qed.

(** ** [conn.Read] *)

(** A read either never returns (nothing arrives and the context has no
    deadline) or returns once, no earlier than it started; a frame or a
    transport failure is returned strictly before the context is done, and
    from an unexpired context nothing is returned after that instant. *)
Lemma conn_Read_cases ctx i s :
  (conn_Read ctx i s = (Blocked, s, []) /\ context.done_at ctx = None)
  \/ exists t res,
       conn_Read ctx i s = (Returned res, at_clock s t, [ConnRead ctx t res])
       /\ clock s <= t
       /\ forall d, context.done_at ctx = Some d ->
            (res = Err context_error \/ t < d) /\ t <= Z.max (clock s) d.
Proof.
  unfold conn_Read, at_clock.
  destruct (arrives i) as [w|], (context.done_at ctx) as [d|].
  - right. destruct (clock s + Z.of_N w <? d) eqn:H.
    + apply Z.ltb_lt in H. exists (clock s + Z.of_N w), (frame i).
      split; [reflexivity|]. split; [lia|].
      intros d' [= <-]. split; [now right | lia].
    + exists (Z.max (clock s) d), (Err context_error).
      split; [reflexivity|]. split; [lia|].
      intros d' [= <-]. split; [now left | lia].
  - right. exists (clock s + Z.of_N w), (frame i).
    split; [reflexivity|]. split; [lia|]. discriminate.
  - right. exists (Z.max (clock s) d), (Err context_error).
    split; [reflexivity|]. split; [lia|].
    intros d' [= <-]. split; [now left | lia].
  - now left.
Qed.

(** ** One turn of the read loop, by what [conn.Read] returns *)

Section Turn.

Variable E : Extern.
Variable ctx : context.t.

Lemma iteration_blocked i s s1 t1 :
  conn_Read ctx i s = (Blocked, s1, t1) ->
  iteration E ctx i s = (Blocked, s1, t1).
Proof. intros H. unfold iteration. now rewrite (bind_Blocked _ _ _ _ _ H). Qed.

Lemma iteration_read_error i s e s1 t1 :
  conn_Read ctx i s = (Returned (Err e), s1, t1) ->
  iteration E ctx i s = (Panicked, s1, t1 ++ [ErrorAndDisconnect ctx e]).
Proof.
  intros H. unfold iteration. rewrite (bind_Returned _ _ _ _ _ _ H).
  reflexivity.
Qed.

Lemma iteration_decode_error i s raw e s1 t1 :
  conn_Read ctx i s = (Returned (Ok raw), s1, t1) ->
  Unmarshal_typeOnly E raw = Err e ->
  iteration E ctx i s = (Panicked, s1, t1 ++ [ErrorAndDisconnect ctx e]).
Proof.
  intros H D. unfold iteration. rewrite (bind_Returned _ _ _ _ _ _ H).
  cbn. unfold bind at 1. cbn. rewrite D. reflexivity.
Qed.

Lemma iteration_after_close i s raw typ s1 t1 :
  conn_Read ctx i s = (Returned (Ok raw), s1, t1) ->
  Unmarshal_typeOnly E raw = Ok typ ->
  closedPacketReceived (peer s1) = true ->
  iteration E ctx i s =
    (Returned tt, s1,
     t1 ++ [LogWarn "received packet after close" (ID (peer s1)) typ]).
Proof.
  intros H D C. unfold iteration. rewrite (bind_Returned _ _ _ _ _ _ H).
  cbn. unfold bind at 1. cbn. rewrite D. cbn. rewrite C. reflexivity.
Qed.

Lemma iteration_dispatch i s raw typ s1 t1 :
  conn_Read ctx i s = (Returned (Ok raw), s1, t1) ->
  Unmarshal_typeOnly E raw = Ok typ ->
  closedPacketReceived (peer s1) = false ->
  iteration E ctx i s =
    (let '(r, s2, t2) := dispatch E ctx i typ raw s1 in (r, s2, t1 ++ t2)).
Proof.
  intros H D C. unfold iteration. rewrite (bind_Returned _ _ _ _ _ _ H).
  cbn -[dispatch]. unfold bind at 1. cbn -[dispatch]. rewrite D.
  cbn -[dispatch]. rewrite C.
  destruct (dispatch E ctx i typ raw s1) as [[r s2] t2].
  reflexivity.
Qed.

(** On a silent connection the read can only fail on the context (or never
    return): the turn does not return. *)
Lemma iteration_silence s :
  result_of (iteration E ctx silence s) <> Returned tt.
Proof.
  unfold iteration, conn_Read. cbn [arrives silence].
  destruct (context.done_at ctx); cbn; discriminate.
Qed.

(** The loop head. *)
Lemma read_loop_expired script s :
  context.expired ctx (clock s) = true ->
  read_loop E ctx script s = (Returned tt, s, []).
Proof. intros H. destruct script; cbn; now rewrite H. Qed.

Lemma read_loop_cons i rest s :
  context.expired ctx (clock s) = false ->
  read_loop E ctx (i :: rest) s =
    bind (iteration E ctx i) (fun _ => read_loop E ctx rest) s.
Proof.
  intros H. cbn [read_loop]. unfold bind at 1, now at 1. rewrite H.
  destruct (bind _ _ s) as [[r s2] t2]. reflexivity.
Qed.

Lemma read_loop_nil s :
  context.expired ctx (clock s) = false ->
  read_loop E ctx [] s = iteration E ctx silence s.
Proof.
  intros H. cbn [read_loop]. unfold bind at 1, now at 1. rewrite H.
  destruct (iteration _ _ _ s) as [[r s2] t2]. reflexivity.
Qed.

End Turn.

(** ** The dispatch branches *)

Section Dispatch.

Variable E : Extern.
Variable ctx : context.t.

Lemma dispatch_credentials_failure i raw s e :
  creds i = Err e ->
  dispatch E ctx i "credentials" raw s =
    (Returned tt, after_dispatch s i, [GetCredentials ctx; ReplyError ctx e]).
Proof. intros H. unfold dispatch. cbn. now rewrite H. Qed.

Lemma dispatch_credentials_sent i raw s c :
  creds i = Ok c -> sent i = None ->
  dispatch E ctx i "credentials" raw s =
    (Returned tt, after_dispatch s i,
     [GetCredentials ctx; PeerSend ctx (CredentialsPacket "credentials" c)]).
Proof. intros H S. unfold dispatch. cbn. rewrite H. cbn. now rewrite S. Qed.

Lemma dispatch_credentials_send_failure i raw s c e :
  creds i = Ok c -> sent i = Some e ->
  dispatch E ctx i "credentials" raw s =
    (Panicked, after_dispatch s i,
     [GetCredentials ctx; PeerSend ctx (CredentialsPacket "credentials" c);
      ErrorAndDisconnect ctx e]).
Proof. intros H S. unfold dispatch. cbn. rewrite H. cbn. now rewrite S. Qed.

Lemma dispatch_event_decoded i raw s params :
  Unmarshal_EventParams E raw = Ok params ->
  dispatch E ctx i "event" raw s =
    (Returned tt, after_dispatch s i, [GoRecordEvent ctx params]).
Proof. intros H. unfold dispatch. cbn. unfold bind. now rewrite H. Qed.

Lemma dispatch_event_undecoded i raw s e :
  Unmarshal_EventParams E raw = Err e ->
  dispatch E ctx i "event" raw s =
    (Panicked, after_dispatch s i, [ErrorAndDisconnect ctx e]).
Proof. intros H. unfold dispatch. cbn. unfold bind. now rewrite H. Qed.

(** Whatever the branch: it ends, and it performs nothing but dispatch
    actions and at most a final disconnect. *)
Lemma dispatch_shape i typ raw s :
  result_of (dispatch E ctx i typ raw s) <> Blocked
  /\ forallb (fun e => reaches_dispatch e || is_disconnect e)
       (trace (dispatch E ctx i typ raw s)) = true.
Proof.
  unfold dispatch.
  destruct (typ =? "credentials")%string;
    [| destruct (typ =? "event")%string; [| destruct (typ =? "pong")%string]];
    cbn; unfold bind; cbn.
  - destruct (creds i); cbn; [destruct (sent i)|]; cbn; split; discriminate || reflexivity.
  - destruct (Unmarshal_EventParams E raw); cbn; split; discriminate || reflexivity.
  - split; discriminate || reflexivity.
  - destruct (snd (handled i)); cbn; split; discriminate || reflexivity.
Qed.

Lemma dispatch_actions_in_read_loop (t : list Event) :
  forallb (fun e => reaches_dispatch e || is_disconnect e) t = true ->
  forallb in_read_loop t = true.
Proof.
  intros H. rewrite forallb_forall in *. intros e He. specialize (H e He).
  destruct e; cbn in *; congruence.
Qed.

Lemma dispatch_actions_read_by c d (t : list Event) :
  forallb (fun e => reaches_dispatch e || is_disconnect e) t = true ->
  Forall (read_by c d) t.
Proof.
  intros H. rewrite forallb_forall in H. apply Forall_forall. intros e He.
  specialize (H e He). destruct e; cbn in *; try exact I. discriminate.
Qed.

End Dispatch.

(** ** The read loop as a whole *)

(** Splits a turn by what [conn.Read] returns, by the type-only decoding and
    by the peer's flag, and rewrites the turn accordingly. *)
Ltac turn E ctx i s :=
  let t := fresh "t" in
  let R := fresh "R" in
  let T := fresh "T" in
  let D := fresh "D" in
  let U := fresh "U" in
  let C := fresh "C" in
  destruct (conn_Read_cases ctx i s) as [[R D] | (t & [raw | e] & R & T & D)];
  [ rewrite (iteration_blocked E ctx i s _ _ R)
  | destruct (Unmarshal_typeOnly E raw) as [typ | e] eqn:U;
    [ destruct (closedPacketReceived (peer s)) eqn:C;
      [ rewrite (iteration_after_close E ctx i s raw typ _ _ R U C)
      | rewrite (iteration_dispatch E ctx i s raw typ _ _ R U C) ]
    | rewrite (iteration_decode_error E ctx i s raw e _ _ R U) ]
  | rewrite (iteration_read_error E ctx i s e _ _ R) ].

Section Loop.

Variable E : Extern.
Variable ctx : context.t.
Variable d : Instant.
Hypothesis deadline : context.done_at ctx = Some d.

Lemma unexpired s : context.expired ctx (clock s) = false -> clock s < d.
Proof. unfold context.expired. rewrite deadline. apply Z.leb_gt. Qed.

(** One turn from an unexpired context: it ends, it performs only actions of
    the loop, and its read returns by the deadline. *)
Lemma iteration_shape i s :
  context.expired ctx (clock s) = false ->
  result_of (iteration E ctx i s) <> Blocked
  /\ forallb in_read_loop (trace (iteration E ctx i s)) = true
  /\ Forall (read_by ctx d) (trace (iteration E ctx i s)).
Proof.
  intros X. apply unexpired in X.
  assert (short : forall t res u,
    (res = Err context_error \/ t < d) -> t <= Z.max (clock s) d ->
    read_by ctx d u ->
    Forall (read_by ctx d) [ConnRead ctx t res; u]).
  { intros t res u H1 H2 H3. constructor; [cbn; repeat split; [lia | exact H1]|].
    constructor; [exact H3 | constructor]. }
  turn E ctx i s; try congruence;
    try (specialize (D _ deadline); destruct D as [D1 D2]).
  - cbn. repeat split; try discriminate. apply short; cbn; auto.
  - pose proof (dispatch_shape E ctx i typ raw (at_clock s t)) as (NB & L).
    destruct (dispatch E ctx i typ raw (at_clock s t)) as [[r s2] t2]. cbn in *.
    split; [exact NB|]. split; [now apply dispatch_actions_in_read_loop|].
    constructor; [cbn; repeat split; [lia | exact D1]|].
    now apply dispatch_actions_read_by.
  - cbn. repeat split; try discriminate. apply short; cbn; auto.
  - cbn. repeat split; try discriminate. apply short; cbn; auto.
Qed.

Lemma read_loop_shape script : forall s,
  result_of (read_loop E ctx script s) <> Blocked
  /\ forallb in_read_loop (trace (read_loop E ctx script s)) = true
  /\ Forall (read_by ctx d) (trace (read_loop E ctx script s)).
Proof.
  induction script as [|i rest IH]; intros s;
    destruct (context.expired ctx (clock s)) eqn:X;
    try (rewrite read_loop_expired by exact X; cbn;
         repeat split; [discriminate | constructor]).
  - rewrite read_loop_nil by exact X. now apply iteration_shape.
  - rewrite read_loop_cons by exact X.
    rewrite bind_result, bind_trace.
    destruct (iteration_shape i s X) as (NB & L & T).
    destruct (result_of (iteration E ctx i s)) as [[]| |]; try congruence.
    + destruct (IH (state_of (iteration E ctx i s))) as (NB' & L' & T').
      split; [exact NB'|]. rewrite forallb_app, L, L'.
      split; [reflexivity|]. now apply Forall_app.
    + rewrite app_nil_r. repeat split; [discriminate | exact L | exact T].
Qed.

End Loop.

(** ** The handler as a whole *)

(** Runs the monadic plumbing of a goroutine, and nothing else. *)
Ltac go_run :=
  cbv beta iota zeta delta
    [bind ret emit panic block get_peer put_peer now elapse defer
     websocket_Accept util_ErrorAndAbort util_ErrorAndDisconnect
     util_ReplyError peer_Send start at_clock peer clock];
  cbn [app].

Lemma connection_deadline r t :
  exists d,
    context.done_at (connection_context r t) = Some d
    /\ d <= t + MaxConnectionTime
    /\ (cancelled r = None -> d = t + MaxConnectionTime).
Proof.
  unfold connection_context. cbn [context.done_at].
  destruct (cancelled r) as [x|]; cbn [context.earlier].
  - exists (Z.min (t + MaxConnectionTime) x).
    split; [reflexivity|]. split; [lia | discriminate].
  - exists (t + MaxConnectionTime).
    split; [reflexivity|]. split; [lia | reflexivity].
Qed.

Lemma teardown_run s : teardown s = (Returned tt, s, teardown_actions s).
Proof.
  unfold teardown, teardown_actions. cbn.
  destruct (closedPacketReceived (peer s)); cbn; now destruct s.
Qed.

Section Whole.

Variable E : Extern.
Variable r : Request.
Variable c : Conn.
Variable t0 : Instant.

Let ctx := connection_context r t0.
Let body := read_loop E ctx (inbound c) (upgraded_at t0 c).

(** The upgrade fails: the request is answered, and nothing but the
    cancellation of the context was deferred by then. *)
Lemma Handler_rejected e :
  accept c = Some e ->
  Handler E r c (start t0) =
    (Panicked, at_clock (start t0) (t0 + Z.of_N (accept_takes c)),
     [LogDebug "upgrading connection"; Accept (acceptOptions E r);
      ErrorAndAbort http.StatusBadRequest "" e; Cancel ctx]).
Proof. intros H. unfold Handler. go_run. rewrite H. reflexivity. Qed.

(** The upgrade succeeds: the read loop runs, then the three deferred calls
    in the reverse order of their [defer] statements. *)
Lemma Handler_upgraded :
  accept c = None ->
  Handler E r c (start t0) =
    (result_of body, state_of body,
     [LogDebug "upgrading connection"; Accept (acceptOptions E r);
      WgAdd 1; GoKeepalive ctx]
     ++ trace body ++ teardown_actions (state_of body) ++ [WgDone; Cancel ctx]).
Proof.
  intros H.
  destruct (connection_deadline r t0) as (d & D & _).
  destruct (read_loop_shape E ctx d D (inbound c) (upgraded_at t0 c)) as (NB & _).
  fold body in NB.
  unfold Handler. go_run. rewrite H. go_run.
  fold (connection_context r t0). fold ctx.
  change {| peer := {| ID := ""; closedPacketReceived := false |};
            clock := t0 + Z.of_N (accept_takes c) |} with (upgraded_at t0 c).
  fold body.
  destruct body as [[res s1] tr] eqn:B. cbn in NB.
  rewrite teardown_run.
  unfold teardown_actions.
  destruct res as [[]| |]; try (now destruct NB);
    cbn [result_of state_of trace fst snd];
    repeat first [rewrite <- app_assoc | progress cbn [app]]; reflexivity.
Qed.

End Whole.

(** ** [strings.Contains] *)

Lemma prefix_occurs sub : forall s,
  String.prefix sub s = true <-> exists after, s = (sub ++ after)%string.
Proof.
  induction sub as [|a sub IH]; intros s.
  - split; [intros _; now exists s | now destruct s].
  - destruct s as [|b s]; simpl.
    + split; [discriminate | intros [after H]; discriminate].
    + destruct (ascii_dec a b) as [<- | N].
      * rewrite IH. split; intros [after H]; exists after; congruence.
      * split; [discriminate | intros [after H]; congruence].
Qed.

Lemma Contains_occurs sub : forall s,
  strings.Contains s sub = true <-> occurs sub s.
Proof.
  unfold occurs. induction s as [|b s IH]; cbn [strings.Contains].
  - rewrite orb_false_r, prefix_occurs. split.
    + intros [after H]. now exists EmptyString, after.
    + intros ([|x before] & after & H); [now exists after | discriminate].
  - rewrite orb_true_iff, prefix_occurs, IH. split.
    + intros [[after H] | (before & after & H)].
      * now exists EmptyString, after.
      * exists (String b before), after. cbn. now rewrite H.
    + intros ([|x before] & after & H).
      * left. now exists after.
      * right. exists before, after. cbn in H. congruence.
Qed.

Lemma isSafari_occurs ua :
  isSafari ua = true <->
  occurs "safari" ua /\ ~ occurs "chrome" ua /\ ~ occurs "android" ua.
Proof.
  unfold isSafari. rewrite !andb_true_iff, !negb_true_iff.
  rewrite <- !not_true_iff_false, !Contains_occurs. tauto.
Qed.

(** ** Actions of the handler outside its read loop *)

Lemma in_read_loop_In body e :
  forallb in_read_loop body = true -> In e body -> in_read_loop e = true.
Proof. intros H. rewrite forallb_forall in H. apply H. Qed.

(** The actions of an upgraded connection: the loop's in the middle. *)
Lemma Handler_actions E r c t0 e :
  accept c = None ->
  In e (trace (Handler E r c (start t0))) ->
  In e [LogDebug "upgrading connection"; Accept (acceptOptions E r); WgAdd 1;
        GoKeepalive (connection_context r t0)]
  \/ (In e (trace (read_loop E (connection_context r t0) (inbound c)
                     (upgraded_at t0 c)))
      /\ in_read_loop e = true)
  \/ In e [LogInfo "peer websocket closed"
             (ID (peer (state_of (Handler E r c (start t0)))));
           ConnClose websocket.StatusInternalError "unexpceted closure";
           Disconnected
             (disconnect_context (clock (state_of (Handler E r c (start t0)))))
             (peer (state_of (Handler E r c (start t0))));
           Cancel
             (disconnect_context (clock (state_of (Handler E r c (start t0)))));
           WgDone; Cancel (connection_context r t0)].
Proof.
  intros A. rewrite (Handler_upgraded E r c t0 A). cbn [trace state_of fst snd].
  destruct (connection_deadline r t0) as (d & D & _).
  destruct (read_loop_shape E _ d D (inbound c) (upgraded_at t0 c)) as (_ & L & _).
  unfold teardown_actions. rewrite !in_app_iff.
  intros [H | [H | [[H | H] | H]]]; auto.
  - right. left. split; [exact H | eapply in_read_loop_In; eassumption].
  - right. right. cbn in *. tauto.
  - right. right. destruct (closedPacketReceived _); cbn in *; tauto.
  - right. right. cbn in *. tauto.
Qed.

(** C10: every upgrade request is passed to [websocket.Accept] once, with
    origin verification skipped; compression is disabled exactly when the
    lowercased User-Agent contains "safari" and neither "chrome" nor
    "android", and is left at the library's default otherwise. *)
Theorem accept_options E r c t0 :
  let ua := ToLower E (UserAgent r) in
  let opts := acceptOptions E r in
  let run := Handler E r c (start t0) in
  nth_error (trace run) 1 = Some (Accept opts)
  /\ (forall o, In (Accept o) (trace run) -> o = opts)
  /\ websocket.InsecureSkipVerify opts = true
  /\ (occurs "safari" ua /\ ~ occurs "chrome" ua /\ ~ occurs "android" ua ->
      websocket.CompressionMode_ opts = CompressionDisabled E)
  /\ (~ (occurs "safari" ua /\ ~ occurs "chrome" ua /\ ~ occurs "android" ua) ->
      websocket.CompressionMode_ opts = websocket.CompressionDefault).
Proof.
  cbv zeta. split; [|split; [|split; [|split]]].
  - destruct (accept c) as [e|] eqn:A.
    + now rewrite (Handler_rejected E r c t0 e A).
    + now rewrite (Handler_upgraded E r c t0 A).
  - intros o. destruct (accept c) as [e|] eqn:A.
    + rewrite (Handler_rejected E r c t0 e A). cbn.
      intros [H | [H | [H | [H | []]]]]; congruence.
    + intros H. apply (Handler_actions E r c t0 _ A) in H.
      destruct H as [H | [[_ H] | H]].
      * cbn in H. destruct H as [H | [H | [H | [H | []]]]]; congruence.
      * discriminate.
      * cbn in H. repeat destruct H as [H | H]; try discriminate. destruct H.
  - unfold acceptOptions. now destruct (isSafari _).
  - intros H. apply isSafari_occurs in H.
    unfold acceptOptions. now rewrite H.
  - intros H. rewrite <- isSafari_occurs in H. apply not_true_iff_false in H.
    unfold acceptOptions. now rewrite H.
Qed.

Lemma accept_options_witness :
  websocket.CompressionMode_ (acceptOptions Sample.extern Sample.safari_request) = 2
  /\ websocket.CompressionMode_ (acceptOptions Sample.extern Sample.request)
     = websocket.CompressionDefault.
Proof.
  split.
  - apply (accept_options Sample.extern Sample.safari_request (Sample.upgraded []) 0).
    apply isSafari_occurs. reflexivity.
  - apply (accept_options Sample.extern Sample.request (Sample.upgraded []) 0).
    rewrite <- isSafari_occurs. now vm_compute.
Defined.




(** C7: the connection's context is derived with a timeout of one hour, so
    it is done at the latest one hour after the handler started; whatever
    the connection sends and however long it does so, no read returns after
    that instant and no frame at or after it, a loop turn that starts once it
    has passed does nothing, and the handler ends and tears down. *)
Theorem connection_lifetime_ceiling E r c t0 :
  accept c = None ->
  let ctx := connection_context r t0 in
  let run := Handler E r c (start t0) in
  MaxConnectionTime = 3600 * gotime.Second
  /\ ctx = context.WithTimeout (context.Request (cancelled r)) t0 MaxConnectionTime
  /\ (exists d,
        context.done_at ctx = Some d
        /\ d <= t0 + MaxConnectionTime
        /\ (forall ctx' t res, In (ConnRead ctx' t res) (trace run) ->
              ctx' = ctx /\ t <= d /\ (res = Err context_error \/ t < d))
        /\ (forall script s, d <= clock s ->
              read_loop E ctx script s = (Returned tt, s, [])))
  /\ result_of run <> Blocked
  /\ In (ConnClose websocket.StatusInternalError "unexpceted closure") (trace run).
Proof.
  intros A. cbv zeta.
  split; [reflexivity|]. split; [reflexivity|].
  destruct (connection_deadline r t0) as (d & D & B & _).
  destruct (read_loop_shape E _ d D (inbound c) (upgraded_at t0 c)) as (NB & L & T).
  split; [exists d; split; [exact D|]; split; [exact B|]; split|].
  - intros ctx' t res H. apply (Handler_actions E r c t0 _ A) in H.
    destruct H as [H | [[H _] | H]].
    + cbn in H. destruct H as [H | [H | [H | [H | []]]]]; discriminate.
    + rewrite Forall_forall in T. exact (T _ H).
    + cbn in H. repeat destruct H as [H | H]; try discriminate. destruct H.
  - intros script s H. apply read_loop_expired.
    unfold context.expired. rewrite D. now apply Z.leb_le.
  - rewrite (Handler_upgraded E r c t0 A). cbn [result_of trace fst snd].
    split; [exact NB|]. unfold teardown_actions.
    rewrite !in_app_iff. right. right. left. left. cbn. auto.
Qed.

Lemma connection_lifetime_ceiling_witness :
  let c := Sample.upgraded
             [Sample.arrival 5 Sample.hello;
              Sample.arrival 7200000000000 Sample.credentials] in
  let ctx := connection_context Sample.request 0 in
  let run := Handler Sample.extern Sample.request c (start 0) in
  accept c = None
  /\ result_of run <> Blocked
  /\ In (ConnClose websocket.StatusInternalError "unexpceted closure") (trace run)
  /\ trace run =
       [LogDebug "upgrading connection";
        Accept (acceptOptions Sample.extern Sample.request);
        WgAdd 1; GoKeepalive ctx;
        ConnRead ctx 1005 (Ok Sample.hello);
        PeerHandlePacket ctx "hello" Sample.hello;
        ConnRead ctx 3600000000000 (Err context_error);
        ErrorAndDisconnect ctx context_error;
        LogInfo "peer websocket closed" "peer-1";
        ConnClose websocket.StatusInternalError "unexpceted closure";
        Disconnected (disconnect_context 3600000000000)
          {| ID := "peer-1"; closedPacketReceived := false |};
        Cancel (disconnect_context 3600000000000);
        WgDone; Cancel ctx].
Proof.
  cbv zeta. split; [reflexivity|].
  pose proof (connection_lifetime_ceiling Sample.extern Sample.request
                (Sample.upgraded
                   [Sample.arrival 5 Sample.hello;
                    Sample.arrival 7200000000000 Sample.credentials])
                0 eq_refl) as H.
  cbv zeta in H. destruct H as (_ & _ & _ & NB & T).
  split; [exact NB|]. split; [exact T | reflexivity].
Defined.

(** ** Failures of the read and of the type-only decoding *)

Lemma read_loop_turn_panics E ctx i rest s s1 t1 :
  context.expired ctx (clock s) = false ->
  iteration E ctx i s = (Panicked, s1, t1) ->
  read_loop E ctx (i :: rest) s = (Panicked, s1, t1).
Proof.
  intros X H. rewrite read_loop_cons by exact X. now apply bind_Panicked.
Qed.

Lemma read_loop_turn_returns E ctx i rest s s1 t1 :
  context.expired ctx (clock s) = false ->
  iteration E ctx i s = (Returned tt, s1, t1) ->
  read_loop E ctx (i :: rest) s =
    (let '(r, s2, t2) := read_loop E ctx rest s1 in (r, s2, t1 ++ t2)).
Proof.
  intros X H. rewrite read_loop_cons by exact X.
  now rewrite (bind_Returned _ _ _ _ _ _ H).
Qed.

(** C5: a turn of the read loop first reads, then decodes the type alone.  A
    read that fails, and a frame whose type-only decoding fails, end the
    loop at once by [util.ErrorAndDisconnect]: nothing more is read, nothing
    is dispatched.  A turn that performs any dispatch action has read a
    frame and decoded its type before, and is that read followed by the
    branch for this type. *)
Theorem read_and_decode_failures_terminate E ctx i rest s :
  context.expired ctx (clock s) = false ->
  (forall e t,
     conn_Read ctx i s = (Returned (Err e), at_clock s t, [ConnRead ctx t (Err e)]) ->
     read_loop E ctx (i :: rest) s =
       (Panicked, at_clock s t, [ConnRead ctx t (Err e); ErrorAndDisconnect ctx e]))
  /\ (forall raw e t,
        conn_Read ctx i s = (Returned (Ok raw), at_clock s t, [ConnRead ctx t (Ok raw)]) ->
        Unmarshal_typeOnly E raw = Err e ->
        read_loop E ctx (i :: rest) s =
          (Panicked, at_clock s t, [ConnRead ctx t (Ok raw); ErrorAndDisconnect ctx e]))
  /\ (existsb reaches_dispatch (trace (iteration E ctx i s)) = true ->
      exists raw typ t,
        conn_Read ctx i s = (Returned (Ok raw), at_clock s t, [ConnRead ctx t (Ok raw)])
        /\ Unmarshal_typeOnly E raw = Ok typ
        /\ iteration E ctx i s =
             (let '(r, s2, t2) := dispatch E ctx i typ raw (at_clock s t) in
              (r, s2, ConnRead ctx t (Ok raw) :: t2))).
Proof.
  intros X. split; [|split].
  - intros e t R. apply read_loop_turn_panics; [exact X|].
    now rewrite (iteration_read_error E ctx i s e _ _ R).
  - intros raw e t R U. apply read_loop_turn_panics; [exact X|].
    now rewrite (iteration_decode_error E ctx i s raw e _ _ R U).
  - turn E ctx i s; cbn; try discriminate.
    intros _. exists raw, typ, t.
    split; [exact R|]. split; [exact U | reflexivity].
Qed.

Lemma read_and_decode_failures_terminate_witness :
  let ctx := connection_context Sample.request 0 in
  context.expired ctx (clock (start 0)) = false
  /\ read_loop Sample.extern ctx
       [Sample.failure 7 "EOF"; Sample.arrival 5 Sample.credentials] (start 0)
     = (Panicked, at_clock (start 0) 7,
        [ConnRead ctx 7 (Err "EOF"); ErrorAndDisconnect ctx "EOF"])
  /\ read_loop Sample.extern ctx
       [Sample.arrival 7 Sample.garbage; Sample.arrival 5 Sample.credentials] (start 0)
     = (Panicked, at_clock (start 0) 7,
        [ConnRead ctx 7 (Ok Sample.garbage);
         ErrorAndDisconnect ctx "invalid character"]).
Proof.
  cbv zeta. split; [reflexivity|]. split.
  - apply (read_and_decode_failures_terminate Sample.extern
             (connection_context Sample.request 0) (Sample.failure 7 "EOF"));
      reflexivity.
  - apply (read_and_decode_failures_terminate Sample.extern
             (connection_context Sample.request 0)
             (Sample.arrival 7 Sample.garbage)); reflexivity.
Defined.

(** C9: with [closedPacketReceived] set, a read that fails and a frame whose
    type-only decoding fails still end the loop by
    [util.ErrorAndDisconnect]; no warning is logged and the loop does not
    go on.  Both checks come before the flag is looked at. *)
Theorem failures_after_close_still_terminate E ctx i rest s t res e :
  closedPacketReceived (peer s) = true ->
  context.expired ctx (clock s) = false ->
  conn_Read ctx i s = (Returned res, at_clock s t, [ConnRead ctx t res]) ->
  res = Err e \/ (exists raw, res = Ok raw /\ Unmarshal_typeOnly E raw = Err e) ->
  read_loop E ctx (i :: rest) s =
    (Panicked, at_clock s t, [ConnRead ctx t res; ErrorAndDisconnect ctx e])
  /\ existsb is_warning (trace (read_loop E ctx (i :: rest) s)) = false.
Proof.
  intros C X R H.
  assert (P : read_loop E ctx (i :: rest) s =
              (Panicked, at_clock s t, [ConnRead ctx t res; ErrorAndDisconnect ctx e])).
  { apply read_loop_turn_panics; [exact X|].
    destruct H as [-> | (raw & -> & U)].
    - now rewrite (iteration_read_error E ctx i s e _ _ R).
    - now rewrite (iteration_decode_error E ctx i s raw e _ _ R U). }
  split; [exact P|]. now rewrite P.
Qed.

Lemma failures_after_close_still_terminate_witness :
  let ctx := connection_context Sample.request 0 in
  let i := Sample.arrival 7 Sample.garbage in
  closedPacketReceived (peer Sample.closed_peer) = true
  /\ context.expired ctx (clock Sample.closed_peer) = false
  /\ conn_Read ctx i Sample.closed_peer =
       (Returned (Ok Sample.garbage), at_clock Sample.closed_peer 7,
        [ConnRead ctx 7 (Ok Sample.garbage)])
  /\ Unmarshal_typeOnly Sample.extern Sample.garbage = Err "invalid character"
  /\ read_loop Sample.extern ctx [i; Sample.arrival 5 Sample.pong] Sample.closed_peer =
       (Panicked, at_clock Sample.closed_peer 7,
        [ConnRead ctx 7 (Ok Sample.garbage);
         ErrorAndDisconnect ctx "invalid character"]).
Proof.
  cbv zeta. repeat (split; [reflexivity|]).
  apply (failures_after_close_still_terminate Sample.extern
           (connection_context Sample.request 0)
           (Sample.arrival 7 Sample.garbage) [Sample.arrival 5 Sample.pong]
           Sample.closed_peer 7 (Ok Sample.garbage) "invalid character");
    try reflexivity.
  right. now exists Sample.garbage.
Defined.

(** ** After the close envelope *)

Lemma iteration_log_and_drop E ctx i s :
  closedPacketReceived (peer s) = true ->
  iteration E ctx i s = log_and_drop_turn E ctx i s
  /\ peer (state_of (iteration E ctx i s)) = peer s
  /\ existsb reaches_dispatch (trace (iteration E ctx i s)) = false.
Proof.
  intros C. unfold log_and_drop_turn.
  destruct (conn_Read_cases ctx i s) as [[R D] | (t & [raw | e] & R & T & D)].
  - rewrite (iteration_blocked E ctx i s _ _ R), (bind_Blocked _ _ _ _ _ R).
    now repeat split.
  - rewrite (bind_Returned _ _ _ _ _ _ R).
    destruct (Unmarshal_typeOnly E raw) as [typ | e] eqn:U.
    + rewrite (iteration_after_close E ctx i s raw typ _ _ R U C).
      cbn. unfold bind at 1. cbn. rewrite U. cbn. now repeat split.
    + rewrite (iteration_decode_error E ctx i s raw e _ _ R U).
      cbn. unfold bind at 1. cbn. rewrite U. now repeat split.
  - rewrite (iteration_read_error E ctx i s e _ _ R), (bind_Returned _ _ _ _ _ _ R).
    now repeat split.
Qed.

(** C3: from the moment [closedPacketReceived] is set the read loop is the
    loop that logs and drops: each turn reads, decodes the type, logs the
    warning and goes on; no turn performs an action of a dispatch branch,
    and the peer (its flag included) stays as it is. *)
Theorem frames_after_close_are_dropped E ctx script : forall s,
  closedPacketReceived (peer s) = true ->
  read_loop E ctx script s = log_and_drop E ctx script s
  /\ peer (state_of (read_loop E ctx script s)) = peer s
  /\ existsb reaches_dispatch (trace (read_loop E ctx script s)) = false.
Proof.
  induction script as [|i rest IH]; intros s C;
    destruct (context.expired ctx (clock s)) eqn:X.
  - rewrite read_loop_expired by exact X. cbn. rewrite X. now repeat split.
  - rewrite read_loop_nil by exact X.
    destruct (iteration_log_and_drop E ctx silence s C) as (H1 & H2 & H3).
    split; [|now split]. rewrite H1. cbn [log_and_drop].
    unfold bind at 1, now at 1. rewrite X.
    now destruct (log_and_drop_turn E ctx silence s) as [[r s2] t2].
  - rewrite read_loop_expired by exact X. cbn. rewrite X. now repeat split.
  - destruct (iteration_log_and_drop E ctx i s C) as (H1 & H2 & H3).
    assert (L : log_and_drop E ctx (i :: rest) s =
                bind (log_and_drop_turn E ctx i) (fun _ => log_and_drop E ctx rest) s).
    { cbn [log_and_drop]. unfold bind at 1, now at 1. rewrite X.
      now destruct (bind _ _ s) as [[r s2] t2]. }
    rewrite L, read_loop_cons by exact X. clear L.
    rewrite bind_state, bind_trace. unfold bind. rewrite <- H1.
    destruct (iteration E ctx i s) as [[[[]| |] s1] t1]; cbn in *;
      try (rewrite app_nil_r; now repeat split).
    rewrite <- H2 in C. destruct (IH s1 C) as (I1 & I2 & I3).
    rewrite <- I1. destruct (read_loop E ctx rest s1) as [[r s2] t2]. cbn in *.
    split; [reflexivity|]. split; [congruence|].
    now rewrite existsb_app, H3, I3.
Qed.

Lemma frames_after_close_are_dropped_witness :
  let ctx := connection_context Sample.request 0 in
  let script := [Sample.arrival 5 Sample.credentials; Sample.arrival 5 Sample.event;
                 Sample.arrival 5 Sample.hello; Sample.failure 9 "EOF"] in
  closedPacketReceived (peer Sample.closed_peer) = true
  /\ read_loop Sample.extern ctx script Sample.closed_peer =
       log_and_drop Sample.extern ctx script Sample.closed_peer
  /\ trace (log_and_drop Sample.extern ctx script Sample.closed_peer) =
       [ConnRead ctx 5 (Ok Sample.credentials);
        LogWarn "received packet after close" "peer-1" "credentials";
        ConnRead ctx 10 (Ok Sample.event);
        LogWarn "received packet after close" "peer-1" "event";
        ConnRead ctx 15 (Ok Sample.hello);
        LogWarn "received packet after close" "peer-1" "hello";
        ConnRead ctx 24 (Err "EOF");
        ErrorAndDisconnect ctx "EOF"].
Proof.
  cbv zeta. split; [reflexivity|]. split; [|reflexivity].
  apply (frames_after_close_are_dropped Sample.extern
           (connection_context Sample.request 0)). reflexivity.
Defined.

(** ** The [credentials] and [event] branches *)

(** C4, as the code has it: a frame of type "credentials" read while
    [closedPacketReceived] is false makes the handler call the credential
    provider.  If it fails, the error goes to [util.ReplyError] and the loop
    goes on with the next frame; if it succeeds, a [CredentialsPacket] of
    type "credentials" carrying the returned credentials is handed to
    [peer.Send] (and only a failure of that send ends the connection). *)
Theorem credentials_request E ctx i rest s t raw :
  context.expired ctx (clock s) = false ->
  closedPacketReceived (peer s) = false ->
  conn_Read ctx i s = (Returned (Ok raw), at_clock s t, [ConnRead ctx t (Ok raw)]) ->
  Unmarshal_typeOnly E raw = Ok "credentials" ->
  let s1 := after_dispatch (at_clock s t) i in
  match creds i, sent i with
  | Err e, _ =>
      read_loop E ctx (i :: rest) s =
        (let '(r, s2, t2) := read_loop E ctx rest s1 in
         (r, s2,
          [ConnRead ctx t (Ok raw); GetCredentials ctx; ReplyError ctx e] ++ t2))
  | Ok credentials, None =>
      read_loop E ctx (i :: rest) s =
        (let '(r, s2, t2) := read_loop E ctx rest s1 in
         (r, s2,
          [ConnRead ctx t (Ok raw); GetCredentials ctx;
           PeerSend ctx (CredentialsPacket "credentials" credentials)] ++ t2))
  | Ok credentials, Some e =>
      read_loop E ctx (i :: rest) s =
        (Panicked, s1,
         [ConnRead ctx t (Ok raw); GetCredentials ctx;
          PeerSend ctx (CredentialsPacket "credentials" credentials);
          ErrorAndDisconnect ctx e])
  end.
Proof.
  intros X C R U. cbv zeta.
  pose proof (iteration_dispatch E ctx i s raw _ _ _ R U C) as H.
  destruct (creds i) as [credentials | e] eqn:G; [destruct (sent i) as [e|] eqn:S|].
  - rewrite (dispatch_credentials_send_failure E ctx i raw _ _ _ G S) in H.
    now apply read_loop_turn_panics.
  - rewrite (dispatch_credentials_sent E ctx i raw _ _ G S) in H.
    now apply read_loop_turn_returns.
  - rewrite (dispatch_credentials_failure E ctx i raw _ _ G) in H.
    now apply read_loop_turn_returns.
Qed.

Lemma credentials_request_witness :
  let ctx := connection_context Sample.request 0 in
  context.expired ctx (clock (start 0)) = false
  /\ closedPacketReceived (peer (start 0)) = false
  /\ Unmarshal_typeOnly Sample.extern Sample.credentials = Ok "credentials"
  /\ read_loop Sample.extern ctx
       [Sample.provider_down 5; Sample.arrival 5 Sample.credentials; Sample.failure 1 "EOF"]
       (start 0) =
     (Panicked, at_clock (start 0) 13,
      [ConnRead ctx 5 (Ok Sample.credentials); GetCredentials ctx;
       ReplyError ctx "cloudflare: 503";
       ConnRead ctx 12 (Ok Sample.credentials); GetCredentials ctx;
       PeerSend ctx (CredentialsPacket "credentials" "turn-credentials");
       ConnRead ctx 13 (Err "EOF"); ErrorAndDisconnect ctx "EOF"]).
Proof.
  cbv zeta. repeat (split; [reflexivity|]).
  rewrite (credentials_request Sample.extern
             (connection_context Sample.request 0) (Sample.provider_down 5)
             [Sample.arrival 5 Sample.credentials; Sample.failure 1 "EOF"]
             (start 0) 5 Sample.credentials eq_refl eq_refl eq_refl eq_refl).
  reflexivity.
Defined.

(** C2, as the code has it: while [closedPacketReceived] is false, a frame
    of type "event" whose telemetry
    parameters decode is handed to [metrics.RecordEvent] in a goroutine of
    its own and the loop goes on with the next frame, whatever the sink
    answers; a frame of type "event" whose telemetry parameters do not
    decode ends the connection by [util.ErrorAndDisconnect]. *)
Theorem event_frames E ctx i rest s t raw :
  context.expired ctx (clock s) = false ->
  closedPacketReceived (peer s) = false ->
  conn_Read ctx i s = (Returned (Ok raw), at_clock s t, [ConnRead ctx t (Ok raw)]) ->
  Unmarshal_typeOnly E raw = Ok "event" ->
  let s1 := after_dispatch (at_clock s t) i in
  (forall answer,
     read_loop E ctx (with_recorded answer i :: rest) s =
     read_loop E ctx (i :: rest) s)
  /\ match Unmarshal_EventParams E raw with
     | Ok params =>
         read_loop E ctx (i :: rest) s =
           (let '(r, s2, t2) := read_loop E ctx rest s1 in
            (r, s2, [ConnRead ctx t (Ok raw); GoRecordEvent ctx params] ++ t2))
     | Err e =>
         read_loop E ctx (i :: rest) s =
           (Panicked, s1, [ConnRead ctx t (Ok raw); ErrorAndDisconnect ctx e])
     end.
Proof.
  intros X C R U. cbv zeta. split.
  - intros answer. rewrite !read_loop_cons by exact X. reflexivity.
  - pose proof (iteration_dispatch E ctx i s raw _ _ _ R U C) as H.
    destruct (Unmarshal_EventParams E raw) as [params | e] eqn:P.
    + rewrite (dispatch_event_decoded E ctx i raw _ _ P) in H.
      now apply read_loop_turn_returns.
    + rewrite (dispatch_event_undecoded E ctx i raw _ _ P) in H.
      now apply read_loop_turn_panics.
Qed.

Lemma event_frames_witness :
  let ctx := connection_context Sample.request 0 in
  context.expired ctx (clock (start 0)) = false
  /\ closedPacketReceived (peer (start 0)) = false
  /\ Unmarshal_typeOnly Sample.extern Sample.event = Ok "event"
  /\ recorded (Sample.arrival 5 Sample.event) = Some "telemetry backend unavailable"
  /\ read_loop Sample.extern ctx
       [Sample.arrival 5 Sample.event; Sample.failure 1 "EOF"] (start 0) =
     (Panicked, at_clock (start 0) 6,
      [ConnRead ctx 5 (Ok Sample.event);
       GoRecordEvent ctx [("action", "join")];
       ConnRead ctx 6 (Err "EOF"); ErrorAndDisconnect ctx "EOF"]).
Proof.
  cbv zeta. repeat (split; [reflexivity|]).
  pose proof (event_frames Sample.extern (connection_context Sample.request 0)
                (Sample.arrival 5 Sample.event) [Sample.failure 1 "EOF"]
                (start 0) 5 Sample.event eq_refl eq_refl eq_refl eq_refl) as H.
  cbv zeta in H. destruct H as [_ H]. rewrite H. reflexivity.
Defined.

(** C4, as stated, fails: after a [close] frame has set the peer's flag, a
    frame of type "credentials" is logged and dropped; the credential
    provider is not called and nothing is sent. *)
Lemma credentials_after_close_not_answered :
  let ctx := connection_context Sample.request 0 in
  let run := Handler Sample.extern Sample.request
               (Sample.upgraded
                  [Sample.arrival 5 Sample.close;
                   Sample.arrival 5 Sample.credentials;
                   Sample.failure 5 "EOF"]) (start 0) in
  Unmarshal_typeOnly Sample.extern Sample.credentials = Ok "credentials"
  /\ existsb reaches_dispatch (skipn 6 (trace run)) = false
  /\ trace run =
       [LogDebug "upgrading connection";
        Accept (acceptOptions Sample.extern Sample.request);
        WgAdd 1; GoKeepalive ctx;
        ConnRead ctx 1005 (Ok Sample.close);
        PeerHandlePacket ctx "close" Sample.close;
        ConnRead ctx 1010 (Ok Sample.credentials);
        LogWarn "received packet after close" "peer-1" "credentials";
        ConnRead ctx 1015 (Err "EOF");
        ErrorAndDisconnect ctx "EOF";
        LogInfo "peer websocket closed" "peer-1";
        ConnClose websocket.StatusInternalError "unexpceted closure";
        WgDone; Cancel ctx].
Proof. cbv zeta. repeat split. Qed.

(** C2, as stated, fails twice.  The frame [{"type":"event","action":7}] is
    of type "event", its telemetry parameters do not decode, and the handler
    ends the connection because of it; the [pong] frame behind it is never
    read.  And after a [close] frame has set the peer's flag, a frame of
    type "event" is logged and dropped, not handed to the sink. *)
Lemma event_decode_failure_disconnects :
  let ctx := connection_context Sample.request 0 in
  let run := Handler Sample.extern Sample.request
               (Sample.upgraded
                  [Sample.arrival 5 Sample.hello;
                   Sample.arrival 5 Sample.event_mistyped;
                   Sample.arrival 5 Sample.pong]) (start 0) in
  let late := Handler Sample.extern Sample.request
                (Sample.upgraded
                   [Sample.arrival 5 Sample.close;
                    Sample.arrival 5 Sample.event;
                    Sample.failure 5 "EOF"]) (start 0) in
  Unmarshal_typeOnly Sample.extern Sample.event_mistyped = Ok "event"
  /\ result_of run = Panicked
  /\ trace run =
       [LogDebug "upgrading connection";
        Accept (acceptOptions Sample.extern Sample.request);
        WgAdd 1; GoKeepalive ctx;
        ConnRead ctx 1005 (Ok Sample.hello);
        PeerHandlePacket ctx "hello" Sample.hello;
        ConnRead ctx 1010 (Ok Sample.event_mistyped);
        ErrorAndDisconnect ctx "json: cannot unmarshal number into Go struct field";
        LogInfo "peer websocket closed" "peer-1";
        ConnClose websocket.StatusInternalError "unexpceted closure";
        Disconnected (disconnect_context 1010)
          {| ID := "peer-1"; closedPacketReceived := false |};
        Cancel (disconnect_context 1010);
        WgDone; Cancel ctx]
  /\ Unmarshal_typeOnly Sample.extern Sample.event = Ok "event"
  /\ trace late =
       [LogDebug "upgrading connection";
        Accept (acceptOptions Sample.extern Sample.request);
        WgAdd 1; GoKeepalive ctx;
        ConnRead ctx 1005 (Ok Sample.close);
        PeerHandlePacket ctx "close" Sample.close;
        ConnRead ctx 1010 (Ok Sample.event);
        LogWarn "received packet after close" "peer-1" "event";
        ConnRead ctx 1015 (Err "EOF");
        ErrorAndDisconnect ctx "EOF";
        LogInfo "peer websocket closed" "peer-1";
        ConnClose websocket.StatusInternalError "unexpceted closure";
        WgDone; Cancel ctx].
Proof. cbv zeta. repeat split. Qed.

(** ** The keepalive goroutine *)

Lemma keepalive_loop_run E ctx sched : forall s,
  trace (keepalive_loop E ctx sched s) = flat_map (ping E ctx) (ticks sched)
  /\ result_of (keepalive_loop E ctx sched s) =
       (if ctx_done sched then Returned tt else Blocked).
Proof.
  induction sched as [|[shared answer|] rest IH]; intros s.
  - now split.
  - cbn [keepalive_loop ticks ctx_done flat_map]. unfold ping at 1.
    cbn [fst snd]. go_run.
    specialize (IH {| peer := shared; clock := clock s |}).
    destruct answer as [e|]; [destruct (IsPipeError E e)|]; cbn;
      destruct (keepalive_loop E ctx rest _) as [[res s2] t2];
      cbn in *; destruct IH as [-> ->]; now split.
  - now split.
Qed.

(** C6: an upgraded connection starts the keepalive goroutine on the
    connection's context.  The goroutine makes a ticker of thirty seconds
    and, for each tick before [select] takes [<-ctx.Done()], sends a
    [PingPacket] of type "ping"; a failed send is logged unless
    [util.IsPipeError] holds of it, and in either case the next tick is
    served; when the context is done the goroutine stops its ticker and
    returns, and it never panics. *)
Theorem keepalive_pings E r c t0 sched s :
  accept c = None ->
  let ctx := connection_context r t0 in
  In (GoKeepalive ctx) (trace (Handler E r c (start t0)))
  /\ 30 * gotime.Second = 30000000000
  /\ trace (keepalive E ctx sched s) =
       NewTicker (30 * gotime.Second)
       :: flat_map (ping E ctx) (ticks sched)
       ++ (if ctx_done sched then [TickerStop] else [])
  /\ result_of (keepalive E ctx sched s) =
       (if ctx_done sched then Returned tt else Blocked).
Proof.
  intros A. cbv zeta. split; [|split; [reflexivity|]].
  - rewrite (Handler_upgraded E r c t0 A). cbn. auto.
  - destruct (keepalive_loop_run E (connection_context r t0) sched s) as [T R].
    unfold keepalive, defer, bind, emit. cbn [app].
    destruct (keepalive_loop E (connection_context r t0) sched s) as [[res s1] t1].
    cbn in T, R. subst t1 res.
    destruct (ctx_done sched); cbn; now rewrite ?app_nil_r.
Qed.

Lemma keepalive_pings_witness :
  let ctx := connection_context Sample.request 0 in
  accept (Sample.upgraded []) = None
  /\ trace (keepalive Sample.extern ctx Sample.keepalive_schedule (start 0)) =
       [NewTicker 30000000000;
        PeerSend ctx (PingPacket "ping");
        PeerSend ctx (PingPacket "ping");
        PeerSend ctx (PingPacket "ping");
        LogError "failed to send ping packet" "peer-1" "i/o timeout";
        PeerSend ctx (PingPacket "ping");
        TickerStop].
Proof.
  cbv zeta. split; [reflexivity|].
  pose proof (keepalive_pings Sample.extern Sample.request (Sample.upgraded []) 0
                Sample.keepalive_schedule (start 0) eq_refl) as H.
  cbv zeta in H. destruct H as (_ & _ & H & _). rewrite H. reflexivity.
Defined.

(** ** The wait-group *)

Lemma wg_counter_app t1 t2 :
  wg_counter (t1 ++ t2) = wg_counter t1 + wg_counter t2.
Proof.
  unfold wg_counter.
  induction t1 as [|e t1 IH]; cbn; [reflexivity | rewrite IH; lia].
Qed.

Lemma quiet_counter t : quiet t -> wg_counter t = 0.
Proof.
  unfold wg_counter.
  induction 1 as [|e t H _ IH]; cbn; [reflexivity | lia].
Qed.

Lemma quiet_firstn n t : quiet t -> quiet (firstn n t).
Proof.
  intros H. revert n. induction H as [|e t He _ IH]; intros [|n]; cbn;
    try constructor; auto.
  apply IH.
Qed.

(** Prefixes of a run that adds once and is done once. *)
Lemma wg_prefix before middle after n :
  quiet before -> quiet middle -> quiet after ->
  let p := firstn n (before ++ [WgAdd 1] ++ middle ++ [WgDone] ++ after) in
  0 <= wg_counter p
  /\ (wg_counter p = 0 -> In (WgAdd 1) p ->
      exists z, p = before ++ [WgAdd 1] ++ middle ++ [WgDone] ++ z).
Proof.
  intros QB QM QA p. subst p.
  rewrite !firstn_app, !wg_counter_app.
  rewrite (quiet_counter _ (quiet_firstn n _ QB)).
  rewrite (quiet_counter _ (quiet_firstn _ _ QM)).
  rewrite (quiet_counter _ (quiet_firstn _ _ QA)).
  cbn [List.length].
  destruct (n - List.length before)%nat as [|a] eqn:Ea.
  - cbn. split; [lia|]. intros _ H. exfalso.
    rewrite app_nil_r in H.
    apply (proj1 (Forall_forall _ _) (quiet_firstn n _ QB)) in H. discriminate.
  - replace (firstn (S a) [WgAdd 1]) with [WgAdd 1] by now destruct a.
    destruct (S a - 1 - List.length middle)%nat as [|b] eqn:Eb.
    + cbn. split; lia.
    + replace (firstn (S b) [WgDone]) with [WgDone] by now destruct b.
      cbn [wg_counter fold_right wg_delta]. split; [lia|]. intros _ _.
      exists (firstn (S b - 1) after).
      rewrite (firstn_all2 before) by lia. rewrite (firstn_all2 middle) by lia.
      reflexivity.
Qed.

Lemma outside_wg_quiet t : forallb outside_wg t = true -> quiet t.
Proof.
  intros H. rewrite forallb_forall in H. apply Forall_forall. intros e He.
  specialize (H e He). now destruct e.
Qed.

Lemma outside_wg_filter t :
  forallb outside_wg t = true ->
  filter is_WgAdd t = [] /\ filter is_WgDone t = [].
Proof.
  induction t as [|e t IH]; cbn; [now split|].
  intros H. apply andb_true_iff in H. destruct H as [He Ht].
  destruct (IH Ht) as [-> ->]. now destruct e.
Qed.

Lemma outside_wg_app t1 t2 :
  forallb outside_wg t1 = true -> forallb outside_wg t2 = true ->
  forallb outside_wg (t1 ++ t2) = true.
Proof. intros H1 H2. now rewrite forallb_app, H1, H2. Qed.

Lemma outside_wg_read_loop t :
  forallb in_read_loop t = true -> forallb outside_wg t = true.
Proof.
  intros H. rewrite forallb_forall in *. intros e He. specialize (H e He).
  now destruct e.
Qed.

Lemma outside_wg_teardown s : forallb outside_wg (teardown_actions s) = true.
Proof.
  unfold teardown_actions. now destruct (closedPacketReceived (peer s)).
Qed.

Section Accounting.

Variable E : Extern.
Variable r : Request.
Variable c : Conn.
Variable t0 : Instant.

Let ctx := connection_context r t0.
Let body := read_loop E ctx (inbound c) (upgraded_at t0 c).
Let middle := GoKeepalive ctx :: trace body ++ teardown_actions (state_of body).

Lemma middle_outside_wg : forallb outside_wg middle = true.
Proof.
  subst middle. cbn [forallb outside_wg is_WgAdd is_WgDone negb andb].
  destruct (connection_deadline r t0) as (d & D & _).
  destruct (read_loop_shape E _ d D (inbound c) (upgraded_at t0 c)) as (_ & L & _).
  apply outside_wg_app; [now apply outside_wg_read_loop | apply outside_wg_teardown].
Qed.

Lemma Handler_upgraded_wg :
  accept c = None ->
  trace (Handler E r c (start t0)) =
    [LogDebug "upgrading connection"; Accept (acceptOptions E r)]
    ++ [WgAdd 1] ++ middle ++ [WgDone] ++ [Cancel ctx].
Proof.
  intros A. rewrite (Handler_upgraded E r c t0 A). subst middle body ctx.
  cbn [trace snd app]. now rewrite <- !app_assoc.
Qed.

(** One connection: it adds one, once, if and only if the upgrade succeeded,
    and then it is done once. *)
Lemma Handler_wg_once :
  (forall delta, In (WgAdd delta) (trace (Handler E r c (start t0))) -> delta = 1)
  /\ filter is_WgAdd (trace (Handler E r c (start t0))) =
       match accept c with Some _ => [] | None => [WgAdd 1] end
  /\ filter is_WgDone (trace (Handler E r c (start t0))) =
       match accept c with Some _ => [] | None => [WgDone] end.
Proof.
  destruct (accept c) as [e|] eqn:A.
  - rewrite (Handler_rejected E r c t0 e A). cbn. repeat split.
    intros delta [H | [H | [H | [H | []]]]]; discriminate.
  - rewrite (Handler_upgraded_wg A).
    destruct (outside_wg_filter _ middle_outside_wg) as [FA FD].
    split; [|rewrite !filter_app, FA, FD; now split].
    intros delta H. rewrite !in_app_iff in H.
    destruct H as [H | [H | [H | [H | H]]]].
    + destruct H as [H | [H | []]]; discriminate.
    + destruct H as [H | []]. congruence.
    + pose proof middle_outside_wg as M. rewrite forallb_forall in M.
      specialize (M _ H). discriminate.
    + destruct H as [H | []]. discriminate.
    + destruct H as [H | []]. discriminate.
Qed.

(** One connection at any moment: it holds the counter at zero or one, and
    once it has added, it holds it at zero only after [wg.Done()], which
    comes after the whole teardown. *)
Lemma Handler_wg_prefix n :
  let p := firstn n (trace (Handler E r c (start t0))) in
  0 <= wg_counter p
  /\ (wg_counter p = 0 -> In (WgAdd 1) p ->
      accept c = None
      /\ exists z,
           p = [LogDebug "upgrading connection"; Accept (acceptOptions E r);
                WgAdd 1; GoKeepalive ctx]
               ++ trace body ++ teardown_actions (state_of body)
               ++ [WgDone] ++ z).
Proof.
  destruct (accept c) as [e|] eqn:A.
  - rewrite (Handler_rejected E r c t0 e A). cbn [trace snd].
    cbv zeta.
    match goal with
    | |- context [firstn n ?l] => assert (Q : quiet l) by (repeat constructor)
    end. rewrite (quiet_counter _ (quiet_firstn n _ Q)). split; [lia|].
    intros _ H. apply (proj1 (Forall_forall _ _) (quiet_firstn n _ Q)) in H.
    discriminate.
  - rewrite (Handler_upgraded_wg A).
    assert (QB : quiet [LogDebug "upgrading connection"; Accept (acceptOptions E r)])
      by (apply outside_wg_quiet; reflexivity).
    assert (QA : quiet [Cancel ctx]) by (apply outside_wg_quiet; reflexivity).
    pose proof (outside_wg_quiet _ middle_outside_wg) as QM.
    destruct (wg_prefix _ _ _ n QB QM QA) as [P1 P2].
    cbv zeta. split; [exact P1|]. intros Z I. split; [reflexivity|].
    destruct (P2 Z I) as [z Hz]. exists z. rewrite Hz. subst middle.
    cbn [app]. now rewrite <- !app_assoc.
Qed.

End Accounting.

Lemma WaitGroup_nonnegative E server : 0 <= WaitGroup E server.
Proof.
  unfold WaitGroup.
  induction server as [|g server IH]; cbn [fold_right]; [lia|].
  pose proof (Handler_wg_prefix E (req g) (conn g) (started g) (steps g)) as H.
  cbv zeta in H. destruct H as [H _]. fold (so_far E g) in H. lia.
Qed.

(** C8, as the code has it: a connection adds one to the wait-group exactly
    once, as the statement right after a successful upgrade and never
    otherwise, and is done exactly once, as the last deferred call but the
    cancellation, after the whole teardown.  So at any moment the
    wait-group's counter is not negative, and when it is zero every
    connection that has added to it has closed its transport and finished
    its teardown. *)
Theorem waitgroup_drains_after_teardown E :
  (forall r c t0,
     let tr := trace (Handler E r c (start t0)) in
     (forall delta, In (WgAdd delta) tr -> delta = 1)
     /\ filter is_WgAdd tr = match accept c with Some _ => [] | None => [WgAdd 1] end
     /\ filter is_WgDone tr = match accept c with Some _ => [] | None => [WgDone] end
     /\ (accept c = None ->
         nth_error tr 1 = Some (Accept (acceptOptions E r))
         /\ nth_error tr 2 = Some (WgAdd 1)))
  /\ (forall server,
        0 <= WaitGroup E server
        /\ (WaitGroup E server = 0 ->
            forall g, In g server -> In (WgAdd 1) (so_far E g) ->
              let ctx := connection_context (req g) (started g) in
              let body := read_loop E ctx (inbound (conn g))
                            (upgraded_at (started g) (conn g)) in
              accept (conn g) = None
              /\ exists z,
                   so_far E g =
                     [LogDebug "upgrading connection";
                      Accept (acceptOptions E (req g)); WgAdd 1; GoKeepalive ctx]
                     ++ trace body ++ teardown_actions (state_of body)
                     ++ [WgDone] ++ z)).
Proof.
  split.
  - intros r c t0. cbv zeta.
    destruct (Handler_wg_once E r c t0) as (H1 & H2 & H3).
    split; [exact H1|]. split; [exact H2|]. split; [exact H3|].
    intros A. now rewrite (Handler_upgraded E r c t0 A).
  - intros server. split; [apply WaitGroup_nonnegative|].
    induction server as [|g' server IH]; [intros _ g []|].
    cbn [WaitGroup fold_right]. intros Z g [-> | G] I.
    + pose proof (WaitGroup_nonnegative E server) as N. unfold WaitGroup in N.
      destruct (Handler_wg_prefix E (req g) (conn g) (started g) (steps g))
        as [P1 P2].
      fold (so_far E g) in P1, P2. apply P2; [lia | exact I].
    + apply IH; [|exact G | exact I].
      pose proof (WaitGroup_nonnegative E server) as N. unfold WaitGroup in *.
      pose proof (proj1 (Handler_wg_prefix E (req g') (conn g')
                           (started g') (steps g'))) as P.
      fold (so_far E g') in P. lia.
Qed.

Lemma waitgroup_drains_after_teardown_witness :
  WaitGroup Sample.extern [Sample.finished; Sample.reading; Sample.rejected] = 1
  /\ WaitGroup Sample.extern [Sample.finished; Sample.rejected] = 0
  /\ In (WgAdd 1) (so_far Sample.extern Sample.finished)
  /\ exists z,
       so_far Sample.extern Sample.finished =
         [LogDebug "upgrading connection";
          Accept (acceptOptions Sample.extern Sample.request); WgAdd 1;
          GoKeepalive (connection_context Sample.request 0)]
         ++ [ConnRead (connection_context Sample.request 0) 1005 (Err "EOF");
             ErrorAndDisconnect (connection_context Sample.request 0) "EOF"]
         ++ [LogInfo "peer websocket closed" "";
             ConnClose websocket.StatusInternalError "unexpceted closure";
             Disconnected (disconnect_context 1005)
               {| ID := ""; closedPacketReceived := false |};
             Cancel (disconnect_context 1005)]
         ++ [WgDone] ++ z.
Proof.
  split; [reflexivity|]. split; [reflexivity|].
  assert (I : In (WgAdd 1) (so_far Sample.extern Sample.finished))
    by (cbn; tauto).
  split; [exact I|].
  destruct (proj2 (waitgroup_drains_after_teardown Sample.extern)
              [Sample.finished; Sample.rejected]) as [_ H].
  destruct (H eq_refl Sample.finished (or_introl eq_refl) I) as [_ [z Hz]].
  exists z. rewrite Hz. reflexivity.
Defined.

(** C8, as stated, fails: a connection whose upgrade has succeeded and whose
    handler has not yet reached [wg.Add(1)] leaves the counter at zero,
    with its transport open and its teardown still to come. *)
Lemma upgraded_connection_not_yet_counted :
  let g := Sample.upgraded_not_added in
  let ctx := connection_context Sample.request 300 in
  accept (conn g) = None
  /\ so_far Sample.extern g =
       [LogDebug "upgrading connection";
        Accept (acceptOptions Sample.extern Sample.request)]
  /\ WaitGroup Sample.extern [g] = 0
  /\ WaitGroup Sample.extern [Sample.finished; g; Sample.rejected] = 0
  /\ skipn (steps g) (trace (Handler Sample.extern (req g) (conn g) (start (started g)))) =
       [WgAdd 1; GoKeepalive ctx;
        ConnRead ctx 1305 (Ok Sample.hello);
        PeerHandlePacket ctx "hello" Sample.hello;
        ConnRead ctx 3600000000300 (Err context_error);
        ErrorAndDisconnect ctx context_error;
        LogInfo "peer websocket closed" "peer-1";
        ConnClose websocket.StatusInternalError "unexpceted closure";
        Disconnected (disconnect_context 3600000000300)
          {| ID := "peer-1"; closedPacketReceived := false |};
        Cancel (disconnect_context 3600000000300);
        WgDone; Cancel ctx].
Proof. cbv zeta. repeat split. Qed.

(** * Further properties of the handler *)

(** ** The default branch: [peer.HandlePacket] *)

Lemma served_by_handler_false typ :
  served_by_handler typ = false ->
  (typ =? "credentials")%string = false
  /\ (typ =? "event")%string = false
  /\ (typ =? "pong")%string = false.
Proof.
  unfold served_by_handler. intros H.
  apply orb_false_iff in H. destruct H as [H P].
  apply orb_false_iff in H. now destruct H.
Qed.

Lemma dispatch_other E ctx i typ raw s :
  served_by_handler typ = false ->
  dispatch E ctx i typ raw s =
    (match snd (handled i) with Some _ => Panicked | None => Returned tt end,
     {| peer := fst (handled i); clock := clock s + Z.of_N (busy i) |},
     PeerHandlePacket ctx typ raw
     :: match snd (handled i) with
        | Some e => [ErrorAndDisconnect ctx e]
        | None => []
        end).
Proof.
  intros H. apply served_by_handler_false in H. destruct H as (H1 & H2 & H3).
  unfold dispatch, peer_HandlePacket. rewrite H1, H2, H3. go_run.
  destruct (snd (handled i)); reflexivity.
Qed.

Lemma iteration_other E ctx i s t raw typ :
  closedPacketReceived (peer s) = false ->
  conn_Read ctx i s = (Returned (Ok raw), at_clock s t, [ConnRead ctx t (Ok raw)]) ->
  Unmarshal_typeOnly E raw = Ok typ ->
  served_by_handler typ = false ->
  iteration E ctx i s =
    (match snd (handled i) with Some _ => Panicked | None => Returned tt end,
     {| peer := fst (handled i); clock := t + Z.of_N (busy i) |},
     ConnRead ctx t (Ok raw) :: PeerHandlePacket ctx typ raw
     :: match snd (handled i) with
        | Some e => [ErrorAndDisconnect ctx e]
        | None => []
        end).
Proof.
  intros C R U H.
  rewrite (iteration_dispatch E ctx i s raw typ _ _ R U C).
  now rewrite (dispatch_other E ctx i typ raw _ H).
Qed.

(** X1: a frame of any type but "credentials", "event" and "pong", read while
    [closedPacketReceived] is false, goes to [peer.HandlePacket] with its
    type and its raw bytes.  If the call returns an error the connection is
    ended by [util.ErrorAndDisconnect]; if not, the loop goes on with the
    next frame.  Either way the peer is from then on as the call left it. *)
Theorem handle_packet_branch E ctx i rest s t raw typ :
  context.expired ctx (clock s) = false ->
  closedPacketReceived (peer s) = false ->
  conn_Read ctx i s = (Returned (Ok raw), at_clock s t, [ConnRead ctx t (Ok raw)]) ->
  Unmarshal_typeOnly E raw = Ok typ ->
  served_by_handler typ = false ->
  let s1 := {| peer := fst (handled i); clock := t + Z.of_N (busy i) |} in
  match snd (handled i) with
  | Some e =>
      read_loop E ctx (i :: rest) s =
        (Panicked, s1,
         [ConnRead ctx t (Ok raw); PeerHandlePacket ctx typ raw;
          ErrorAndDisconnect ctx e])
  | None =>
      read_loop E ctx (i :: rest) s =
        (let '(r, s2, t2) := read_loop E ctx rest s1 in
         (r, s2, [ConnRead ctx t (Ok raw); PeerHandlePacket ctx typ raw] ++ t2))
  end.
Proof.
  intros X C R U H. cbv zeta.
  pose proof (iteration_other E ctx i s t raw typ C R U H) as I.
  destruct (snd (handled i)) as [e|].
  - now apply read_loop_turn_panics.
  - now apply read_loop_turn_returns.
Qed.

Lemma handle_packet_branch_witness :
  let ctx := connection_context Sample.request 0 in
  context.expired ctx (clock (start 0)) = false
  /\ closedPacketReceived (peer (start 0)) = false
  /\ Unmarshal_typeOnly Sample.extern Sample.hello = Ok "hello"
  /\ served_by_handler "hello" = false
  /\ read_loop Sample.extern ctx
       [Sample.arrival 5 Sample.hello; Sample.refused 4; Sample.arrival 1 Sample.pong]
       (start 0) =
     (Panicked, {| peer := {| ID := "peer-9"; closedPacketReceived := false |};
                   clock := 12 |},
      [ConnRead ctx 5 (Ok Sample.hello); PeerHandlePacket ctx "hello" Sample.hello;
       ConnRead ctx 9 (Ok Sample.hello); PeerHandlePacket ctx "hello" Sample.hello;
       ErrorAndDisconnect ctx "peer: unknown id"]).
Proof.
  cbv zeta. repeat (split; [reflexivity|]).
  rewrite (handle_packet_branch Sample.extern (connection_context Sample.request 0)
             (Sample.arrival 5 Sample.hello)
             [Sample.refused 4; Sample.arrival 1 Sample.pong]
             (start 0) 5 Sample.hello "hello" eq_refl eq_refl eq_refl eq_refl eq_refl).
  reflexivity.
Defined.

(** ** From the close envelope to the teardown *)

(** The read loop of a peer whose flag is set. *)
Lemma closed_loop E ctx script : forall s,
  closedPacketReceived (peer s) = true ->
  read_loop E ctx script s = log_and_drop E ctx script s
  /\ peer (state_of (read_loop E ctx script s)) = peer s
  /\ existsb reaches_dispatch (trace (read_loop E ctx script s)) = false.
Proof.
  induction script as [|i rest IH]; intros s C;
    destruct (context.expired ctx (clock s)) eqn:X;
    try (rewrite read_loop_expired by exact X; cbn; rewrite X; now repeat split).
  - destruct (iteration_log_and_drop E ctx silence s C) as (H1 & H2 & H3).
    rewrite read_loop_nil by exact X. split; [|now split].
    rewrite H1. cbn [log_and_drop]. unfold bind at 1, now at 1. rewrite X.
    now destruct (log_and_drop_turn E ctx silence s) as [[r s2] t2].
  - destruct (iteration_log_and_drop E ctx i s C) as (H1 & H2 & H3).
    assert (L : log_and_drop E ctx (i :: rest) s =
                bind (log_and_drop_turn E ctx i) (fun _ => log_and_drop E ctx rest) s).
    { cbn [log_and_drop]. unfold bind at 1, now at 1. rewrite X.
      now destruct (bind _ _ s) as [[r s2] t2]. }
    rewrite L, read_loop_cons by exact X. clear L.
    rewrite bind_state, bind_trace. unfold bind. rewrite <- H1.
    destruct (iteration E ctx i s) as [[[[]| |] s1] t1]; cbn in *;
      try (rewrite app_nil_r; now repeat split).
    rewrite <- H2 in C. destruct (IH s1 C) as (I1 & I2 & I3).
    rewrite <- I1. destruct (read_loop E ctx rest s1) as [[r s2] t2]. cbn in *.
    split; [reflexivity|]. split; [congruence|].
    now rewrite existsb_app, H3, I3.
Qed.

Lemma filter_none {A} (f : A -> bool) (l : list A) :
  existsb f l = false -> filter f l = [].
Proof.
  induction l as [|a l IH]; cbn; [reflexivity|].
  intros H. apply orb_false_iff in H. destruct H as [Ha Hl].
  rewrite Ha. now apply IH.
Qed.

(** X2: when [peer.HandlePacket] returns without error and has set the
    peer's [closedPacketReceived], this call is the last dispatch of the
    connection: every later frame is only logged and dropped, the peer stays
    as the call left it, and the deferred teardown then logs and closes the
    transport without calling [Disconnected]. *)
Theorem close_packet_ends_dispatch E ctx i rest s t raw typ p' :
  context.expired ctx (clock s) = false ->
  closedPacketReceived (peer s) = false ->
  conn_Read ctx i s = (Returned (Ok raw), at_clock s t, [ConnRead ctx t (Ok raw)]) ->
  Unmarshal_typeOnly E raw = Ok typ ->
  served_by_handler typ = false ->
  handled i = (p', None) ->
  closedPacketReceived p' = true ->
  let s1 := {| peer := p'; clock := t + Z.of_N (busy i) |} in
  let run := read_loop E ctx (i :: rest) s in
  run = (let '(r, s2, t2) := log_and_drop E ctx rest s1 in
         (r, s2, [ConnRead ctx t (Ok raw); PeerHandlePacket ctx typ raw] ++ t2))
  /\ peer (state_of run) = p'
  /\ filter reaches_dispatch (trace run) = [PeerHandlePacket ctx typ raw]
  /\ trace (teardown (state_of run)) =
       [LogInfo "peer websocket closed" (ID p');
        ConnClose websocket.StatusInternalError "unexpceted closure"].
Proof.
  intros X C R U H HP CP. cbv zeta.
  pose proof (iteration_other E ctx i s t raw typ C R U H) as I.
  rewrite HP in I. cbn [fst snd] in I.
  rewrite (read_loop_turn_returns E ctx i rest s _ _ X I).
  destruct (closed_loop E ctx rest
              {| peer := p'; clock := t + Z.of_N (busy i) |} CP) as (L1 & L2 & L3).
  rewrite <- L1.
  destruct (read_loop E ctx rest _) as [[r s2] t2]. cbn in L2, L3.
  cbn [state_of trace fst snd app filter reaches_dispatch].
  split; [reflexivity|]. split; [exact L2|].
  split; [now rewrite (filter_none _ _ L3)|].
  rewrite teardown_run. cbn [trace snd]. unfold teardown_actions.
  rewrite L2, CP. reflexivity.
Qed.

Lemma close_packet_ends_dispatch_witness :
  let ctx := connection_context Sample.request 0 in
  let script := [Sample.arrival 5 Sample.close; Sample.arrival 5 Sample.credentials;
                 Sample.failure 5 "EOF"] in
  context.expired ctx (clock (start 0)) = false
  /\ closedPacketReceived (peer (start 0)) = false
  /\ Unmarshal_typeOnly Sample.extern Sample.close = Ok "close"
  /\ served_by_handler "close" = false
  /\ handled (Sample.arrival 5 Sample.close) =
       ({| ID := "peer-1"; closedPacketReceived := true |}, None)
  /\ filter reaches_dispatch (trace (read_loop Sample.extern ctx script (start 0))) =
       [PeerHandlePacket ctx "close" Sample.close]
  /\ trace (teardown (state_of (read_loop Sample.extern ctx script (start 0)))) =
       [LogInfo "peer websocket closed" "peer-1";
        ConnClose websocket.StatusInternalError "unexpceted closure"].
Proof.
  cbv zeta. do 5 (split; [reflexivity|]).
  pose proof (close_packet_ends_dispatch Sample.extern
                (connection_context Sample.request 0)
                (Sample.arrival 5 Sample.close)
                [Sample.arrival 5 Sample.credentials; Sample.failure 5 "EOF"]
                (start 0) 5 Sample.close "close"
                {| ID := "peer-1"; closedPacketReceived := true |}
                eq_refl eq_refl eq_refl eq_refl eq_refl eq_refl eq_refl) as H.
  cbv zeta in H. destruct H as (_ & _ & F & T). split; [exact F | exact T].
Defined.

(** ** How the read loop ends *)

Lemma ends_by_disconnect_last ctx before e :
  existsb is_disconnect before = false ->
  ends_by_disconnect ctx (before ++ [ErrorAndDisconnect ctx e]).
Proof. intros H. now exists before, e. Qed.

Lemma ends_by_disconnect_after ctx t1 t2 :
  existsb is_disconnect t1 = false ->
  ends_by_disconnect ctx t2 -> ends_by_disconnect ctx (t1 ++ t2).
Proof.
  intros H (before & e & -> & B). exists (t1 ++ before), e.
  split; [now rewrite app_assoc | now rewrite existsb_app, H, B].
Qed.

Lemma dispatch_exit E ctx i typ raw s :
  match result_of (dispatch E ctx i typ raw s) with
  | Returned _ => existsb is_disconnect (trace (dispatch E ctx i typ raw s)) = false
  | Panicked => ends_by_disconnect ctx (trace (dispatch E ctx i typ raw s))
  | Blocked => False
  end.
Proof.
  unfold dispatch, peer_HandlePacket.
  destruct (typ =? "credentials")%string;
    [| destruct (typ =? "event")%string; [| destruct (typ =? "pong")%string]];
    go_run.
  - unfold cloudflare_GetCredentials. go_run.
    destruct (creds i) as [c|e]; [destruct (sent i) as [e|]|]; cbn;
      try reflexivity.
    now apply (ends_by_disconnect_last ctx [GetCredentials ctx; PeerSend ctx _]).
  - destruct (Unmarshal_EventParams E raw) as [params|e]; cbn; try reflexivity.
    now apply (ends_by_disconnect_last ctx []).
  - reflexivity.
  - destruct (snd (handled i)) as [e|]; cbn; try reflexivity.
    now apply (ends_by_disconnect_last ctx [PeerHandlePacket ctx typ raw]).
Qed.

Lemma iteration_exit E ctx i s :
  match result_of (iteration E ctx i s) with
  | Returned _ => existsb is_disconnect (trace (iteration E ctx i s)) = false
  | Panicked => ends_by_disconnect ctx (trace (iteration E ctx i s))
  | Blocked =>
      context.done_at ctx = None /\ trace (iteration E ctx i s) = []
  end.
Proof.
  turn E ctx i s; cbn [result_of trace fst snd].
  - now split.
  - reflexivity.
  - pose proof (dispatch_exit E ctx i typ raw (at_clock s t)) as H.
    destruct (dispatch E ctx i typ raw (at_clock s t)) as [[[[]| |] s2] t2];
      cbn in *; try assumption; [|destruct H].
    now apply (ends_by_disconnect_after ctx [ConnRead ctx t (Ok raw)]).
  - now apply (ends_by_disconnect_last ctx [ConnRead ctx t (Ok raw)]).
  - now apply (ends_by_disconnect_last ctx [ConnRead ctx t (Err e)]).
Qed.

(** X3: the read loop returns only when the connection's context is done at
    its head ([ctx.Err() != nil]), and then it has never called
    [util.ErrorAndDisconnect]; every other end of the loop is a panic out of
    [util.ErrorAndDisconnect], which is then the loop's last action and the
    only call of it.  The loop can wait for ever only on a context that has
    no deadline. *)
Theorem read_loop_exits E ctx script : forall s,
  let run := read_loop E ctx script s in
  match result_of run with
  | Returned _ =>
      context.expired ctx (clock (state_of run)) = true
      /\ existsb is_disconnect (trace run) = false
  | Panicked => ends_by_disconnect ctx (trace run)
  | Blocked =>
      context.done_at ctx = None /\ existsb is_disconnect (trace run) = false
  end.
Proof.
  cbv zeta.
  induction script as [|i rest IH]; intros s;
    destruct (context.expired ctx (clock s)) eqn:X;
    try (rewrite read_loop_expired by exact X; now split).
  - rewrite read_loop_nil by exact X.
    pose proof (iteration_exit E ctx silence s) as H.
    pose proof (iteration_silence E ctx s) as N.
    destruct (iteration E ctx silence s) as [[[[]| |] s1] t1]; cbn in *.
    + now destruct N.
    + exact H.
    + destruct H as [H ->]. now split.
  - rewrite read_loop_cons by exact X.
    rewrite bind_result, bind_state, bind_trace.
    pose proof (iteration_exit E ctx i s) as H.
    destruct (iteration E ctx i s) as [[[[]| |] s1] t1]; cbn in *.
    + specialize (IH s1).
      destruct (read_loop E ctx rest s1) as [[[[]| |] s2] t2]; cbn in *.
      * destruct IH as [I1 I2]. split; [exact I1|].
        now rewrite existsb_app, H, I2.
      * now apply ends_by_disconnect_after.
      * destruct IH as [I1 I2]. split; [exact I1|].
        now rewrite existsb_app, H, I2.
    + now rewrite app_nil_r.
    + destruct H as [H ->]. now split.
Qed.

(** ** Where the dispatch actions come from *)

Lemma conn_Read_frame ctx i s raw s1 t1 :
  conn_Read ctx i s = (Returned (Ok raw), s1, t1) -> frame i = Ok raw.
Proof.
  unfold conn_Read.
  destruct (arrives i) as [w|], (context.done_at ctx) as [d|];
    try destruct (clock s + Z.of_N w <? d); congruence.
Qed.

Lemma dispatch_explained E ctx i typ raw s :
  frame i = Ok raw ->
  Unmarshal_typeOnly E raw = Ok typ ->
  Forall (explained E ctx i) (trace (dispatch E ctx i typ raw s)).
Proof.
  intros F U. unfold dispatch, peer_HandlePacket, cloudflare_GetCredentials.
  destruct (String.eqb_spec typ "credentials") as [-> | N1];
    [| destruct (String.eqb_spec typ "event") as [-> | N2];
       [| destruct (String.eqb_spec typ "pong") as [-> | N3]]];
    go_run.
  - destruct (creds i) as [c|e] eqn:G; [destruct (sent i) as [e|]|]; cbn;
      repeat constructor; cbn; eauto 10.
  - destruct (Unmarshal_EventParams E raw) as [params|e] eqn:P; cbn;
      repeat constructor; cbn; eauto 10.
  - constructor.
  - assert (S : served_by_handler typ = false).
    { unfold served_by_handler.
      apply String.eqb_neq in N1, N2, N3. now rewrite N1, N2, N3. }
    destruct (snd (handled i)); cbn; repeat constructor; cbn; auto.
Qed.

Lemma iteration_explained E ctx i s :
  Forall (explained E ctx i) (trace (iteration E ctx i s)).
Proof.
  turn E ctx i s; cbn [trace snd]; try (repeat constructor).
  pose proof (dispatch_explained E ctx i typ raw (at_clock s t)
                (conn_Read_frame _ _ _ _ _ _ R) U) as H.
  destruct (dispatch E ctx i typ raw (at_clock s t)) as [[r s2] t2].
  cbn [trace snd app] in *. constructor; [exact I | exact H].
Qed.

Lemma silence_explains_nothing E ctx e :
  reaches_dispatch e = true -> ~ explained E ctx silence e.
Proof.
  destruct e; cbn; try discriminate; intros _ H.
  - destruct H as (_ & raw & H & _). discriminate.
  - destruct H as (_ & raw & H & _). discriminate.
  - destruct H as (_ & raw & c & H & _). discriminate.
  - destruct H as (_ & raw & H & _). discriminate.
  - destruct H as (_ & H & _). discriminate.
Qed.

Lemma read_loop_explained E ctx script : forall s e,
  In e (trace (read_loop E ctx script s)) ->
  reaches_dispatch e = true ->
  exists i, In i script /\ explained E ctx i e.
Proof.
  induction script as [|i rest IH]; intros s e;
    destruct (context.expired ctx (clock s)) eqn:X;
    try (rewrite read_loop_expired by exact X; intros []).
  - rewrite read_loop_nil by exact X. intros H D. exfalso.
    apply (silence_explains_nothing E ctx e D).
    exact (proj1 (Forall_forall _ _) (iteration_explained E ctx silence s) e H).
  - rewrite read_loop_cons by exact X. rewrite bind_trace.
    intros H D. apply in_app_iff in H. destruct H as [H | H].
    + exists i. split; [now left|].
      exact (proj1 (Forall_forall _ _) (iteration_explained E ctx i s) e H).
    + destruct (result_of (iteration E ctx i s)) as [[]| |]; try now destruct H.
      destruct (IH _ e H D) as (j & J & EJ). exists j. split; [now right | exact EJ].
Qed.

Lemma Handler_explained E r c t0 e :
  In e (trace (Handler E r c (start t0))) ->
  reaches_dispatch e = true ->
  exists i, In i (inbound c) /\ explained E (connection_context r t0) i e.
Proof.
  intros H D. destruct (accept c) as [err|] eqn:A.
  - rewrite (Handler_rejected E r c t0 err A) in H. cbn in H.
    destruct H as [<- | [<- | [<- | [<- | []]]]]; discriminate.
  - apply (Handler_actions E r c t0 e A) in H.
    destruct H as [H | [[H _] | H]].
    + cbn in H. destruct H as [<- | [<- | [<- | [<- | []]]]]; discriminate.
    + exact (read_loop_explained E _ _ _ e H D).
    + cbn in H. repeat destruct H as [<- | H]; try discriminate. destruct H.
Qed.

(** X4: [peer.HandlePacket] is only ever called on the connection's context,
    with the raw bytes of a frame of this connection and the type that
    [json.Unmarshal] read from these bytes, and never for a frame of type
    "credentials", "event" or "pong". *)
Theorem handle_packet_routing E r c t0 ctx' typ raw :
  In (PeerHandlePacket ctx' typ raw) (trace (Handler E r c (start t0))) ->
  ctx' = connection_context r t0
  /\ typ <> "credentials" /\ typ <> "event" /\ typ <> "pong"
  /\ exists i,
       In i (inbound c) /\ frame i = Ok raw /\ Unmarshal_typeOnly E raw = Ok typ.
Proof.
  intros H. destruct (Handler_explained E r c t0 _ H eq_refl) as (i & I & X).
  cbn in X. destruct X as (-> & F & U & S).
  apply served_by_handler_false in S. destruct S as (S1 & S2 & S3).
  apply String.eqb_neq in S1, S2, S3.
  repeat split; try assumption. now exists i.
Qed.

(** X5: the telemetry sink is only ever handed parameters that
    [json.Unmarshal] decoded from a frame of this connection whose type is
    "event", on the connection's context. *)
Theorem telemetry_handoff E r c t0 ctx' params :
  In (GoRecordEvent ctx' params) (trace (Handler E r c (start t0))) ->
  ctx' = connection_context r t0
  /\ exists i raw,
       In i (inbound c) /\ frame i = Ok raw
       /\ Unmarshal_typeOnly E raw = Ok "event"
       /\ Unmarshal_EventParams E raw = Ok params.
Proof.
  intros H. destruct (Handler_explained E r c t0 _ H eq_refl) as (i & I & X).
  cbn in X. destruct X as (-> & raw & F & U & P).
  split; [reflexivity|]. now exists i, raw.
Qed.


Lemma handle_packet_routing_witness :
  let ctx := connection_context Sample.request 0 in
  let c := Sample.upgraded
             [Sample.arrival 5 Sample.pong; Sample.arrival 5 Sample.hello;
              Sample.failure 5 "EOF"] in
  In (PeerHandlePacket ctx "hello" Sample.hello)
     (trace (Handler Sample.extern Sample.request c (start 0)))
  /\ exists i,
       In i (inbound c) /\ frame i = Ok Sample.hello
       /\ Unmarshal_typeOnly Sample.extern Sample.hello = Ok "hello".
Proof.
  cbv zeta.
  assert (H : In (PeerHandlePacket (connection_context Sample.request 0) "hello"
                    Sample.hello)
                (trace (Handler Sample.extern Sample.request
                          (Sample.upgraded
                             [Sample.arrival 5 Sample.pong;
                              Sample.arrival 5 Sample.hello;
                              Sample.failure 5 "EOF"]) (start 0)))).
  { do 6 right. left. reflexivity. }
  split; [exact H|].
  apply (handle_packet_routing Sample.extern Sample.request _ 0 _ _ _ H).
Defined.

Lemma telemetry_handoff_witness :
  let ctx := connection_context Sample.request 0 in
  let c := Sample.upgraded
             [Sample.arrival 5 Sample.event; Sample.failure 5 "EOF"] in
  In (GoRecordEvent ctx [("action", "join")])
     (trace (Handler Sample.extern Sample.request c (start 0)))
  /\ exists i raw,
       In i (inbound c) /\ frame i = Ok raw
       /\ Unmarshal_typeOnly Sample.extern raw = Ok "event"
       /\ Unmarshal_EventParams Sample.extern raw = Ok [("action", "join")].
Proof.
  cbv zeta.
  assert (H : In (GoRecordEvent (connection_context Sample.request 0)
                    [("action", "join")])
                (trace (Handler Sample.extern Sample.request
                          (Sample.upgraded
                             [Sample.arrival 5 Sample.event;
                              Sample.failure 5 "EOF"]) (start 0)))).
  { do 5 right. left. reflexivity. }
  split; [exact H|].
  apply (telemetry_handoff Sample.extern Sample.request _ 0 _ _ H).
Defined.

(** ** Contexts *)

(** X7: on every path through the handler, a failed upgrade included, the
    cancel function of the connection's context is called exactly once, as
    the handler's last action; the only other context the handler cancels is
    the one it made for [Disconnected], and it does so in the same
    teardown. *)
Theorem contexts_are_cancelled E r c t0 :
  let ctx := connection_context r t0 in
  let run := Handler E r c (start t0) in
  exists before,
    trace run = before ++ [Cancel ctx]
    /\ (forall ctx', In (Cancel ctx') before ->
          ctx' <> ctx
          /\ ctx' = disconnect_context (clock (state_of run))
          /\ In (Disconnected ctx' (peer (state_of run))) before)
    /\ (forall ctx' p, In (Disconnected ctx' p) before -> In (Cancel ctx') before).
Proof.
  cbv zeta. destruct (accept c) as [err|] eqn:A.
  - rewrite (Handler_rejected E r c t0 err A). cbn [trace state_of fst snd].
    exists [LogDebug "upgrading connection"; Accept (acceptOptions E r);
            ErrorAndAbort http.StatusBadRequest "" err].
    split; [reflexivity|]. split.
    + intros ctx' H. cbn in H. repeat destruct H as [H | H]; try discriminate.
      destruct H.
    + intros ctx' p H. cbn in H. repeat destruct H as [H | H]; try discriminate.
      destruct H.
  - rewrite (Handler_upgraded E r c t0 A). cbn [trace state_of fst snd].
    destruct (connection_deadline r t0) as (d & D & _).
    destruct (read_loop_shape E _ d D (inbound c) (upgraded_at t0 c)) as (_ & L & _).
    set (body := read_loop E (connection_context r t0) (inbound c) (upgraded_at t0 c)) in *.
    exists ([LogDebug "upgrading connection"; Accept (acceptOptions E r); WgAdd 1;
             GoKeepalive (connection_context r t0)]
            ++ trace body ++ teardown_actions (state_of body) ++ [WgDone]).
    split; [now rewrite <- !app_assoc|].
    assert (B : forall e, In e (trace body) -> in_read_loop e = true)
      by (intros e; now apply in_read_loop_In).
    unfold teardown_actions. split.
    + intros ctx' H. rewrite !in_app_iff in H.
      destruct H as [H | [H | [[H | H] | H]]].
      * cbn in H. repeat destruct H as [H | H]; try discriminate. destruct H.
      * apply B in H. discriminate.
      * cbn in H. repeat destruct H as [H | H]; try discriminate. destruct H.
      * destruct (closedPacketReceived (peer (state_of body))); cbn in H;
          [destruct H | destruct H as [H | [H | []]]; [discriminate|]].
        injection H as <-. split; [discriminate|]. split; [reflexivity|].
        rewrite !in_app_iff. right. right. left. right. now left.
      * cbn in H. repeat destruct H as [H | H]; try discriminate. destruct H.
    + intros ctx' p H. rewrite !in_app_iff in H |- *.
      destruct H as [H | [H | [[H | H] | H]]].
      * cbn in H. repeat destruct H as [H | H]; try discriminate. destruct H.
      * apply B in H. discriminate.
      * cbn in H. repeat destruct H as [H | H]; try discriminate. destruct H.
      * destruct (closedPacketReceived (peer (state_of body))); cbn in H;
          [destruct H | destruct H as [H | [H | []]]; [|discriminate]].
        injection H as <- _. right. right. left. right. right. now left.
      * cbn in H. repeat destruct H as [H | H]; try discriminate. destruct H.
Qed.

(** ** The failed upgrade *)

(** X8: when [websocket.Accept] fails, the handler passes its error to
    [util.ErrorAndAbort] with [http.StatusBadRequest] and an empty code and
    ends there: it reads nothing of the connection, starts no keepalive
    goroutine, leaves the wait-group alone, closes no transport and calls no
    [Disconnected]; only the deferred cancel of the context still runs. *)
Theorem failed_upgrade E r c t0 e :
  accept c = Some e ->
  let run := Handler E r c (start t0) in
  result_of run = Panicked
  /\ peer (state_of run) = fresh_peer
  /\ trace run =
       [LogDebug "upgrading connection"; Accept (acceptOptions E r);
        ErrorAndAbort http.StatusBadRequest "" e;
        Cancel (connection_context r t0)]
  /\ http.StatusBadRequest = 400.
Proof.
  intros A. cbv zeta. rewrite (Handler_rejected E r c t0 e A). now repeat split.
Qed.

Lemma failed_upgrade_witness :
  let run := Handler Sample.extern Sample.request (conn Sample.rejected) (start 200) in
  accept (conn Sample.rejected) = Some "websocket: bad handshake"
  /\ result_of run = Panicked
  /\ trace run =
       [LogDebug "upgrading connection";
        Accept (acceptOptions Sample.extern Sample.request);
        ErrorAndAbort 400 "" "websocket: bad handshake";
        Cancel (connection_context Sample.request 200)].
Proof.
  cbv zeta. split; [reflexivity|].
  pose proof (failed_upgrade Sample.extern Sample.request (conn Sample.rejected)
                200 "websocket: bad handshake" eq_refl) as H.
  cbv zeta in H. destruct H as (R & _ & T & _). split; [exact R | exact T].
Defined.

(** ** Who writes the peer *)

Lemma dispatch_keeps_peer E ctx i typ raw s :
  existsb is_HandlePacket (trace (dispatch E ctx i typ raw s)) = false ->
  peer (state_of (dispatch E ctx i typ raw s)) = peer s.
Proof.
  unfold dispatch, peer_HandlePacket, cloudflare_GetCredentials.
  destruct (typ =? "credentials")%string;
    [| destruct (typ =? "event")%string; [| destruct (typ =? "pong")%string]];
    go_run.
  - now destruct (creds i) as [c|e]; [destruct (sent i) as [e|]|].
  - now destruct (Unmarshal_EventParams E raw) as [params|e].
  - reflexivity.
  - destruct (snd (handled i)); cbn; discriminate.
Qed.

Lemma iteration_keeps_peer E ctx i s :
  existsb is_HandlePacket (trace (iteration E ctx i s)) = false ->
  peer (state_of (iteration E ctx i s)) = peer s.
Proof.
  turn E ctx i s; cbn [trace state_of fst snd]; try reflexivity.
  pose proof (dispatch_keeps_peer E ctx i typ raw (at_clock s t)) as H.
  destruct (dispatch E ctx i typ raw (at_clock s t)) as [[r s2] t2].
  cbn in *. exact H.
Qed.

Lemma read_loop_keeps_peer E ctx script : forall s,
  existsb is_HandlePacket (trace (read_loop E ctx script s)) = false ->
  peer (state_of (read_loop E ctx script s)) = peer s.
Proof.
  induction script as [|i rest IH]; intros s;
    destruct (context.expired ctx (clock s)) eqn:X;
    try (rewrite read_loop_expired by exact X; reflexivity).
  - rewrite read_loop_nil by exact X. apply iteration_keeps_peer.
  - rewrite read_loop_cons by exact X. rewrite bind_trace, bind_state, existsb_app.
    intros H. apply orb_false_iff in H. destruct H as [H1 H2].
    pose proof (iteration_keeps_peer E ctx i s H1) as P.
    destruct (result_of (iteration E ctx i s)) as [[]| |]; try exact P.
    rewrite (IH _ H2). exact P.
Qed.

(** X9: only [peer.HandlePacket] writes the peer.  A connection on which it
    was never called (no frame, or only "credentials", "event" and "pong"
    frames) reaches the teardown with the peer as it was constructed, and
    [Disconnected] is called for this peer, whose [ID] is empty. *)
Theorem unidentified_peer_is_reported E r c t0 :
  accept c = None ->
  existsb is_HandlePacket (trace (Handler E r c (start t0))) = false ->
  let run := Handler E r c (start t0) in
  peer (state_of run) = fresh_peer
  /\ In (Disconnected (disconnect_context (clock (state_of run))) fresh_peer)
        (trace run)
  /\ ID fresh_peer = "".
Proof.
  intros A. cbv zeta. rewrite (Handler_upgraded E r c t0 A).
  cbn [trace state_of fst snd]. rewrite !existsb_app. intros H.
  apply orb_false_iff in H. destruct H as [_ H].
  apply orb_false_iff in H. destruct H as [H _].
  pose proof (read_loop_keeps_peer E _ _ _ H) as P.
  cbn [upgraded_at peer] in P. fold fresh_peer in P.
  split; [exact P|]. split; [|reflexivity].
  unfold teardown_actions. rewrite P. cbn [fresh_peer closedPacketReceived].
  rewrite !in_app_iff. right. right. left. right. now left.
Qed.

Lemma unidentified_peer_is_reported_witness :
  let c := Sample.upgraded
             [Sample.arrival 5 Sample.pong; Sample.arrival 5 Sample.credentials;
              Sample.failure 5 "EOF"] in
  let run := Handler Sample.extern Sample.request c (start 0) in
  accept c = None
  /\ existsb is_HandlePacket (trace run) = false
  /\ In (Disconnected (disconnect_context 1015) fresh_peer) (trace run).
Proof.
  cbv zeta. split; [reflexivity|]. split; [reflexivity|].
  apply (unidentified_peer_is_reported Sample.extern Sample.request
           (Sample.upgraded
              [Sample.arrival 5 Sample.pong; Sample.arrival 5 Sample.credentials;
               Sample.failure 5 "EOF"]) 0 eq_refl eq_refl).
Defined.
